(** * RelayForLifeScraper: the ticket formula, the detail-page extraction,
      the per-team aggregation and the report rows of [main.py].

    Numbers.  Every amount of the program is a Python [float].  A float
    is modelled by [pyfloat]: a finite value is an exact rational, and
    the three special values a float can take ([inf], [-inf], [nan])
    are kept, because [float(text)] produces them from the texts
    "inf" and "nan" and [math.floor] raises on them.  The arithmetic
    on finite values is exact: rounding to binary64, overflow and the
    sign of zero are not modelled.  The properties are therefore kept
    to what does not depend on it: a total is stated in the order in
    which the program adds, never regrouped, and what is read from a
    text is stated as to its sign and its finiteness, or for the texts
    whose number a float holds exactly.

    Strings.  A Python [str] is modelled by [string], each character
    read as the code point of the same number (U+0000 to U+00FF). *)

From Stdlib Require Import ZArith QArith Qround Lia Lqa.
From Stdlib Require Import List String Ascii Bool Setoid Morphisms.
From Stdlib Require Import PrimFloat SpecFloat FloatOps.
Import ListNotations.

Local Open Scope Z_scope.

(** * Part I: the program

    ** Exceptions and the error monad *)

Inductive exn : Type :=
| ValueError
| OverflowError
| ZeroDivisionError.

Inductive result (A : Type) : Type :=
| Ok (a : A)
| Raise (e : exn).

Arguments Ok {A} a.
Arguments Raise {A} e.

Definition bind {A B : Type} (m : result A) (k : A -> result B) : result B :=
  match m with
  | Ok a => k a
  | Raise e => Raise e
  end.

Notation "x <- m ;; k" := (bind m (fun x => k))
  (at level 61, m at next level, right associativity).

(** ** Python floats *)

Inductive pyfloat : Type :=
| Fin (q : Q)
| PInf
| NInf
| NaN.

Definition of_int (z : Z) : pyfloat := Fin (inject_Z z).

(** [0.0] *)
Definition fzero : pyfloat := Fin 0.

(** [x < y] *)
Definition flt (x y : pyfloat) : bool :=
  match x, y with
  | NaN, _ | _, NaN => false
  | Fin a, Fin b => negb (Qle_bool b a)
  | NInf, NInf => false
  | NInf, _ => true
  | _, NInf => false
  | PInf, _ => false
  | Fin _, PInf => true
  end.

(** [x <= y] *)
Definition fle (x y : pyfloat) : bool :=
  match x, y with
  | NaN, _ | _, NaN => false
  | Fin a, Fin b => Qle_bool a b
  | NInf, _ => true
  | _, PInf => true
  | _, _ => false
  end.

(** [x + y] *)
Definition fadd (x y : pyfloat) : pyfloat :=
  match x, y with
  | NaN, _ | _, NaN => NaN
  | Fin a, Fin b => Fin (a + b)
  | PInf, NInf | NInf, PInf => NaN
  | PInf, _ | _, PInf => PInf
  | NInf, _ | _, NInf => NInf
  end.


(** [- x] *)
Definition fneg (x : pyfloat) : pyfloat :=
  match x with
  | Fin a => Fin (- a)
  | PInf => NInf
  | NInf => PInf
  | NaN => NaN
  end.

(** [x - y] *)
Definition fsub (x y : pyfloat) : pyfloat := fadd x (fneg y).

(** [x / y]; a zero divisor raises. *)
Definition fdiv (x y : pyfloat) : result pyfloat :=
  match y with
  | NaN => Ok NaN
  | Fin b =>
      if Qeq_bool b 0 then Raise ZeroDivisionError
      else match x with
           | Fin a => Ok (Fin (a / b))
           | NaN => Ok NaN
           | PInf => Ok (if Qle_bool 0 b then PInf else NInf)
           | NInf => Ok (if Qle_bool 0 b then NInf else PInf)
           end
  | PInf | NInf =>
      match x with
      | Fin _ => Ok fzero
      | _ => Ok NaN
      end
  end.

(** [math.floor(x)]: an [int]; raises on [nan] and on the infinities. *)
Definition math_floor (x : pyfloat) : result Z :=
  match x with
  | Fin a => Ok (Qfloor a)
  | NaN => Raise ValueError
  | PInf | NInf => Raise OverflowError
  end.

(** ** calculate_tickets *)

Definition calculate_tickets (amount : pyfloat) : result Z :=
  if flt amount (of_int 30) then Ok 0
  else
    q <- fdiv (fsub amount (of_int 30)) (of_int 20) ;;
    f <- math_floor q ;;
    let tickets := f + 1 in
    Ok (Z.min tickets 50).

(** ** calculate_tickets on binary64

    The same function on the floats of the interpreter, to check the
    exact model at the amounts the specification names. *)

(** [math.floor(x)] *)
Definition floor_binary64 (x : float) : result Z :=
  match Prim2SF x with
  | S754_zero _ => Ok 0
  | S754_finite s m e =>
      let v := if s then Z.neg m else Z.pos m in
      Ok (if 0 <=? e then v * 2 ^ e else v / 2 ^ (- e))
  | S754_infinity _ => Raise OverflowError
  | S754_nan => Raise ValueError
  end.

Definition calculate_tickets_binary64 (amount : float) : result Z :=
  if PrimFloat.ltb amount 30%float then Ok 0
  else
    f <- floor_binary64
           (PrimFloat.div (PrimFloat.sub amount 30%float) 20%float) ;;
    let tickets := f + 1 in
    Ok (Z.min tickets 50).

(** The floats nearest to 49.999 and to 29.999. *)
Definition f49_999 : float := 0x1.8ffdf3b645a1dp+5%float.
Definition f29_999 : float := 0x1.dffbe76c8b439p+4%float.

Local Open Scope string_scope.

(** ** Python strings *)

Definition code (c : ascii) : N := N_of_ascii c.

Definition in_range (lo hi : N) (c : ascii) : bool :=
  (N.leb lo (code c) && N.leb (code c) hi)%bool.

(** [c.isspace()] for a code point below 256: TAB to CR, FS to US, space,
    NEL and the no-break space. *)
Definition py_isspace (c : ascii) : bool :=
  (in_range 9 13 c || in_range 28 32 c
   || N.eqb (code c) 133 || N.eqb (code c) 160)%bool.

Definition is_digit (c : ascii) : bool := in_range 48 57 c.

Definition digit_val (c : ascii) : N := (code c - 48)%N.

(** [c.lower()] for a code point below 256. *)
Definition lower_char (c : ascii) : ascii :=
  if (in_range 65 90 c || in_range 192 214 c || in_range 216 222 c)%bool
  then ascii_of_N (code c + 32)
  else c.

Fixpoint lower (s : string) : string :=
  match s with
  | EmptyString => EmptyString
  | String c r => String (lower_char c) (lower r)
  end.

Fixpoint lstrip_by (sp : ascii -> bool) (s : string) : string :=
  match s with
  | EmptyString => EmptyString
  | String c r => if sp c then lstrip_by sp r else s
  end.

Fixpoint rstrip_by (sp : ascii -> bool) (s : string) : string :=
  match s with
  | EmptyString => EmptyString
  | String c r =>
      match rstrip_by sp r with
      | EmptyString => if sp c then EmptyString else String c EmptyString
      | r' => String c r'
      end
  end.

(** [s.strip()] *)
Definition strip (s : string) : string :=
  lstrip_by py_isspace (rstrip_by py_isspace s).

(** [s.replace(c, "")] for a one-character [c]. *)
Fixpoint remove_char (c : ascii) (s : string) : string :=
  match s with
  | EmptyString => EmptyString
  | String d r => if Ascii.eqb d c then remove_char c r
                  else String d (remove_char c r)
  end.

(** [c in s] *)
Fixpoint has_char (c : ascii) (s : string) : bool :=
  match s with
  | EmptyString => false
  | String a r => (Ascii.eqb a c || has_char c r)%bool
  end.

(** [", ".join(l)] *)
Fixpoint join (sep : string) (l : list string) : string :=
  match l with
  | [] => ""
  | [x] => x
  | x :: r => x ++ sep ++ join sep r
  end.

(** ** float(text)

    The text may carry single underscores between digits, and white
    space around the number; the number is a sign followed by "inf",
    "infinity" or "nan" in any case, or by a decimal numeral with an
    optional fraction and an optional exponent.  Anything else raises
    [ValueError]. *)

(** Underscores are allowed only between two digits; they are dropped. *)
Fixpoint drop_underscores (prev : option ascii) (s : string) : option string :=
  let prev_digit := match prev with Some p => is_digit p | None => false end in
  let prev_under := match prev with Some p => Ascii.eqb p "_" | None => false end in
  match s with
  | EmptyString => if prev_under then None else Some EmptyString
  | String c r =>
      if Ascii.eqb c "_" then
        if prev_digit then drop_underscores (Some c) r else None
      else if (prev_under && negb (is_digit c))%bool then None
      else option_map (String c) (drop_underscores (Some c) r)
  end.

(** The white space [float] skips around the number: TAB to CR, the
    space, NEL and the no-break space (not FS to US, which [strip]
    removes). *)
Definition float_space (c : ascii) : bool :=
  (in_range 9 13 c || N.eqb (code c) 32
   || N.eqb (code c) 133 || N.eqb (code c) 160)%bool.

(** Reads a run of digits: the value read after [acc], the number of
    digits read, and the rest of the text. *)
Fixpoint read_digits (s : string) (acc : N) (n : nat) : N * nat * string :=
  match s with
  | String c r =>
      if is_digit c then read_digits r (acc * 10 + digit_val c)%N (S n)
      else (acc, n, s)
  | EmptyString => (acc, n, s)
  end.

(** [m * 10 ^ e] as a rational, [m] a natural number. *)
Definition scale10 (m : N) (e : Z) : Q :=
  match e with
  | Zneg p => Z.of_N m # Pos.pow 10 p
  | _ => inject_Z (Z.of_N m * 10 ^ e)
  end.

Definition is_e (c : ascii) : bool := (Ascii.eqb c "e" || Ascii.eqb c "E")%bool.

(** The exponent part, after the digits: nothing, or [e], a sign and at
    least one digit, up to the end of the text. *)
Definition read_exponent (s : string) : option Z :=
  match s with
  | EmptyString => Some 0
  | String c r =>
      if is_e c then
        let '(neg, r1) :=
          match r with
          | String "-" r' => (true, r')
          | String "+" r' => (false, r')
          | _ => (false, r)
          end in
        match read_digits r1 0 0 with
        | (_, O, _) => None
        | (v, _, EmptyString) => Some (if neg then - Z.of_N v else Z.of_N v)
        | _ => None
        end
      else None
  end.

(** An unsigned decimal numeral. *)
Definition read_number (s : string) : option Q :=
  let '(ip, ni, r1) := read_digits s 0 0 in
  let '(m, nf, r2) :=
    match r1 with
    | String "." r => read_digits r ip 0
    | _ => (ip, O, r1)
    end in
  match (ni + nf)%nat with
  | O => None
  | _ => match read_exponent r2 with
         | Some e => Some (scale10 m (e - Z.of_nat nf))
         | None => None
         end
  end.

(** An unsigned value: an infinity, a nan or a numeral. *)
Definition read_abs (s : string) : option pyfloat :=
  let l := lower s in
  if (String.eqb l "inf" || String.eqb l "infinity")%bool then Some PInf
  else if String.eqb l "nan" then Some NaN
  else option_map Fin (read_number s).

Definition read_signed (s : string) : option pyfloat :=
  match s with
  | String "-" r => option_map fneg (read_abs r)
  | String "+" r => read_abs r
  | _ => read_abs s
  end.

Definition py_float (text : string) : result pyfloat :=
  match drop_underscores None text with
  | None => Raise ValueError
  | Some s =>
      match read_signed (lstrip_by float_space (rstrip_by float_space s)) with
      | Some v => Ok v
      | None => Raise ValueError
      end
  end.

Local Open Scope list_scope.

(** ** The detail page, as the browser shows it

    A lookup that finds nothing is [None]: the bounded wait timed out
    ([TimeoutException]) or [find_element] raised. *)

Record block : Type := {
  (** text of [div.team-roster-participant-name] *)
  participant_name : option string;
  (** text of [div.team-roster-participant-raised] *)
  participant_raised : option string
}.

Record detail_page : Type := {
  (** text of [div.user-info h2], waited for *)
  user_info_h2 : option string;
  (** text of [h1#personal_header] *)
  personal_header : option string;
  (** whether a [#team-members div.members.row div.item] showed up in time *)
  members_present : bool;
  (** the elements [find_elements] returns for that selector *)
  member_blocks : list block
}.

(** [driver.get(url)]: the page a link loads. *)
Definition driver : Type := string -> detail_page.

Record team : Type := {
  team_name : string;
  team_link : string
}.

Record member : Type := {
  full_name : string;
  amount : pyfloat;
  member_team : string
}.

(** The lines the program prints. *)
Inductive diag : Type :=
| CouldNotFindBlocks (name : string)
| SkippingBlock (name : string).

(** ** scrape_team_members *)

(** STEP 1: the real team name. *)
Definition detail_team_name (p : detail_page) : string :=
  match user_info_h2 p with
  | Some text => strip text
  | None =>
      match personal_header p with
      | Some text => strip text
      | None => "Unknown Team"
      end
  end.

(** [amount_el.text.strip().replace("$", "").replace(",", "")] *)
Definition amount_str (raised : string) : string :=
  remove_char "," (remove_char "$" (strip raised)).

(** [try: amount = float(amount_str)  except ValueError: amount = 0.0] *)
Definition parse_amount (raised : string) : result pyfloat :=
  match py_float (amount_str raised) with
  | Ok a => Ok a
  | Raise ValueError => Ok fzero
  | Raise e => Raise e
  end.

(** The body of the [try] of one block: the name and the amount read, or
    [None] when the block is skipped. *)
Definition read_block (b : block) : option (string * pyfloat) :=
  match participant_name b with
  | None => None
  | Some name_text =>
      match participant_raised b with
      | None => None
      | Some raised_text =>
          match parse_amount raised_text with
          | Ok a => Some (strip name_text, a)
          | Raise _ => None
          end
      end
  end.

Definition is_team_gifts (name : string) : bool :=
  String.eqb (lower name) "team gifts".

(** One turn of the loop over the blocks; the state is [members],
    [team_gifts] and the lines printed so far. *)
Definition block_step (tname : string)
    (st : list member * pyfloat * list diag) (b : block)
  : list member * pyfloat * list diag :=
  let '(members, team_gifts, out) := st in
  match read_block b with
  | Some (name, a) =>
      if is_team_gifts name then (members, a, out)
      else (members ++ [{| full_name := name; amount := a;
                           member_team := tname |}], team_gifts, out)
  | None => (members, team_gifts, out ++ [SkippingBlock tname])
  end.

(** Returns the team with its name filled in, [(members, team_gifts)] and
    the lines printed. *)
Definition scrape_team_members (d : driver) (t : team)
  : team * (list member * pyfloat) * list diag :=
  let p := d (team_link t) in
  let t' := {| team_name := detail_team_name p; team_link := team_link t |} in
  if members_present p then
    let '(members, team_gifts, out) :=
      fold_left (block_step (team_name t')) (member_blocks p) ([], fzero, []) in
    (t', (members, team_gifts), out)
  else
    (t', ([], fzero), [CouldNotFindBlocks (team_name t')]).

(** ** Python dictionaries with [str] keys

    A [dict] keeps its keys in insertion order, and assigning to a key
    that is present keeps its place. *)

Definition dict (V : Type) : Type := list (string * V).

Fixpoint dict_get {V : Type} (k : string) (d : dict V) : option V :=
  match d with
  | [] => None
  | (k', v) :: r => if String.eqb k' k then Some v else dict_get k r
  end.

(** [d[k] = v] *)
Fixpoint dict_set {V : Type} (k : string) (v : V) (d : dict V) : dict V :=
  match d with
  | [] => [(k, v)]
  | (k', v') :: r =>
      if String.eqb k' k then (k', v) :: r else (k', v') :: dict_set k v r
  end.

(** [d[k] = f(d[k])], for a key that is present. *)
Definition dict_adjust {V : Type} (k : string) (f : V -> V) (d : dict V)
  : dict V :=
  match dict_get k d with
  | Some v => dict_set k (f v) d
  | None => d
  end.

(** ** main: the aggregation loop *)

(** A value of [team_data]. *)
Record team_entry : Type := {
  members : list string;
  total : pyfloat;
  team_gifts : pyfloat
}.

Definition set_team_gifts (g : pyfloat) (e : team_entry) : team_entry :=
  {| members := members e; total := total e; team_gifts := g |}.

Definition append_member (n : string) (e : team_entry) : team_entry :=
  {| members := members e ++ [n]; total := total e;
     team_gifts := team_gifts e |}.

Definition add_total (a : pyfloat) (e : team_entry) : team_entry :=
  {| members := members e; total := fadd (total e) a;
     team_gifts := team_gifts e |}.

(** What the loop has built so far.  An entry of [participant_data] has
    the keys and the values of the member it is made from. *)
Record state : Type := {
  participant_data : list member;
  team_data : dict team_entry;
  printed : list diag
}.

Definition initial : state :=
  {| participant_data := []; team_data := []; printed := [] |}.

(** One turn of [for m in members]. *)
Definition member_step (key : string)
    (acc : list member * dict team_entry) (m : member)
  : list member * dict team_entry :=
  let '(pd, td) := acc in
  (pd ++ [{| full_name := full_name m; amount := amount m;
             member_team := member_team m |}],
   dict_adjust key (add_total (amount m))
     (dict_adjust key (append_member (full_name m)) td)).

(** One turn of [for t in teams], given what [scrape_team_members]
    returned for it. *)
Definition record_visit (key : string) (ms : list member) (gifts : pyfloat)
    (pd : list member) (td : dict team_entry)
  : list member * dict team_entry :=
  let td1 :=
    match dict_get key td with
    | None => dict_set key {| members := []; total := fzero;
                              team_gifts := gifts |} td
    | Some _ => dict_adjust key (set_team_gifts gifts) td
    end in
  let '(pd2, td2) := fold_left (member_step key) ms (pd, td1) in
  (pd2, dict_adjust key (add_total gifts) td2).

Definition visit (d : driver) (st : state) (t : team) : state :=
  let '(t', (ms, gifts), out) := scrape_team_members d t in
  let '(pd, td) :=
    record_visit (team_name t') ms gifts (participant_data st) (team_data st) in
  {| participant_data := pd; team_data := td; printed := printed st ++ out |}.

Definition aggregate (d : driver) (teams : list team) : state :=
  fold_left (visit d) teams initial.

(** ** main: the two tables *)

Record participant_row : Type := {
  Full_Name : string;
  Team : string;
  Amount_Raised : pyfloat;
  Attendance : string;
  Shirt_Size : string;
  Raffle_Tickets : Z
}.

Record team_row : Type := {
  Team_Name : string;
  Members : string;
  Team_Gifts : pyfloat;
  Total_Raised : pyfloat;
  Team_Raffle_Tickets : Z;
  Camera_Collected : string
}.

Definition participant_row_of (part : member) : result participant_row :=
  raffle_tix <- calculate_tickets (amount part) ;;
  Ok {| Full_Name := full_name part; Team := member_team part;
        Amount_Raised := amount part; Attendance := ""; Shirt_Size := "";
        Raffle_Tickets := raffle_tix |}.

Definition team_row_of (item : string * team_entry) : result team_row :=
  let '(name, data) := item in
  raffle_tix <- calculate_tickets (team_gifts data) ;;
  Ok {| Team_Name := name; Members := join ", " (members data);
        Team_Gifts := team_gifts data; Total_Raised := total data;
        Team_Raffle_Tickets := raffle_tix; Camera_Collected := "" |}.

(** A loop that appends [f x] for each [x], stopping at the first raise. *)
Fixpoint for_each {A B : Type} (f : A -> result B) (l : list A)
  : result (list B) :=
  match l with
  | [] => Ok []
  | x :: r => y <- f x ;; ys <- for_each f r ;; Ok (y :: ys)
  end.

Record report : Type := {
  Participants : list participant_row;
  Teams : list team_row
}.

Definition build_report (st : state) : result report :=
  participants_list <- for_each participant_row_of (participant_data st) ;;
  teams_list <- for_each team_row_of (team_data st) ;;
  Ok {| Participants := participants_list; Teams := teams_list |}.

Definition main (d : driver) (teams : list team) : result report :=
  build_report (aggregate d teams).

(** ** scrape_team_list, and main as the browser sees it *)

(** The team list page: whether the cookie button became clickable in
    time, and the [href] of each [div.team-list-name a], in document
    order. *)
Record list_page : Type := {
  accept_clickable : bool;
  team_list_links : list string
}.

(** The browser: the list page and the detail page a url loads. *)
Record browser : Type := {
  list_page_at : string -> list_page;
  detail_page_at : driver
}.

(** What a run does to the outside, in order. *)
Inductive effect : Type :=
| Navigate (url : string)
| ClickAccept
| Say (line : diag)
| SaveWorkbook (file : string) (r : report)
| SaySuccess (file : string)
| QuitDriver.

(** What stops a run: the wait for the team links timing out, which
    nothing catches, or an exception of the computation. *)
Inductive failure : Type :=
| TimeoutException
| PyError (e : exn).

(** The wait for the links returns the elements once there is at least
    one; with none it times out, and the result is [None]. *)
Definition scrape_team_list (b : browser) (url : string)
  : list effect * option (list team) :=
  let p := list_page_at b url in
  let clicks := if accept_clickable p then [ClickAccept] else [] in
  match team_list_links p with
  | [] => (Navigate url :: clicks, None)
  | team_links =>
      (Navigate url :: clicks,
       Some (map (fun team_url => {| team_name := ""; team_link := team_url |})
               team_links))
  end.

Definition base_url : string :=
  "https://support.cancer.ca/site/TR/RelayForLife/?pg=teamlist&fr_id=30024".

Definition output_filename : string := "RelayForLife.xlsx".

(** [main], from the first page load to [driver.quit()]: the effects in
    order, and what stopped the run if it did not finish. *)
Definition run_main (b : browser) : list effect * option failure :=
  let '(listing, found) := scrape_team_list b base_url in
  match found with
  | None => (listing, Some TimeoutException)
  | Some teams =>
      let d := detail_page_at b in
      let visiting :=
        flat_map (fun t => Navigate (team_link t)
                           :: map Say (snd (scrape_team_members d t)))
          teams in
      match main d teams with
      | Raise e => (listing ++ visiting, Some (PyError e))
      | Ok r =>
          (listing ++ visiting
           ++ [SaveWorkbook output_filename r; SaySuccess output_filename;
               QuitDriver],
           None)
      end
  end.

(** * Part II: notions the properties are stated with

    ** One visit of the loop, and a whole run *)

(** What one member does to the entry of its team. *)
Definition entry_step (e : team_entry) (m : member) : team_entry :=
  add_total (amount m) (append_member (full_name m) e).

(** The entry of a team after one more visit to it: [old] is its entry
    before, if it had one. *)
Definition entry_after (old : option team_entry) (ms : list member)
    (gifts : pyfloat) : team_entry :=
  let '(names, sum) :=
    match old with
    | Some e => (members e, total e)
    | None => ([], fzero)
    end in
  {| members := names ++ map full_name ms;
     total := fadd (fold_left fadd (map amount ms) sum) gifts;
     team_gifts := gifts |}.

(** What [scrape_team_members] hands to the loop for a team: the name it
    resolved, the members and the team gifts. *)
Definition visit_name (d : driver) (t : team) : string :=
  team_name (fst (fst (scrape_team_members d t))).

Definition visit_members (d : driver) (t : team) : list member :=
  fst (snd (fst (scrape_team_members d t))).

Definition visit_gifts (d : driver) (t : team) : pyfloat :=
  snd (snd (fst (scrape_team_members d t))).

Definition visit_printed (d : driver) (t : team) : list diag :=
  snd (scrape_team_members d t).

(** The visits of a run that resolve to the name [k], in order. *)
Definition visits_to (d : driver) (k : string) (teams : list team) : list team :=
  filter (fun t => String.eqb (visit_name d t) k) teams.

(** The entry of a team after the visits [ts] to it. *)
Definition entry_after_all (d : driver) (ts : list team)
    (old : option team_entry) : option team_entry :=
  fold_left
    (fun oe t => Some (entry_after oe (visit_members d t) (visit_gifts d t)))
    ts old.

(** The running sum the loop keeps for a team: for each visit in turn,
    the amounts of its members and then its team gifts. *)
Definition running_total (d : driver) (ts : list team) (start : pyfloat)
  : pyfloat :=
  fold_left
    (fun acc t =>
       fadd (fold_left fadd (map amount (visit_members d t)) acc)
         (visit_gifts d t))
    ts start.

(** ** The blocks of a page *)

(** The blocks that are not skipped, as the name and the amount read. *)
Definition readable (bs : list block) : list (string * pyfloat) :=
  flat_map (fun b => match read_block b with
                     | Some x => [x]
                     | None => []
                     end) bs.

Definition is_gift (x : string * pyfloat) : bool := is_team_gifts (fst x).

Definition member_of (tname : string) (x : string * pyfloat) : member :=
  {| full_name := fst x; amount := snd x; member_team := tname |}.

Definition skipped (b : block) : bool :=
  match read_block b with
  | Some _ => false
  | None => true
  end.

(** ** Floats as values *)

(** [x] and [y] are the same float value. *)
Definition feqv (x y : pyfloat) : Prop :=
  match x, y with
  | Fin a, Fin b => a == b
  | PInf, PInf | NInf, NInf | NaN, NaN => True
  | _, _ => False
  end.

(** What [read_abs] reads is an infinity, a nan or a finite value that
    is not negative. *)
Definition unsigned_value (v : pyfloat) : Prop :=
  match v with
  | Fin q => (0 <= q)%Q
  | PInf | NaN => True
  | NInf => False
  end.

(** Whether [calculate_tickets] returns on [x]. *)
Definition returns_tickets (x : pyfloat) : bool :=
  match x with
  | NaN | PInf => false
  | _ => true
  end.

(** ** Three claims as the specification words them *)



(** C7 as stated: a team whose blocks did not show up in time has a team
    row with team gifts 0.0, total 0.0 and 0 tickets, and no participant
    row. *)
Definition blank_row_claim (d : driver) (teams : list team) : Prop :=
  forall t r,
    In t teams ->
    members_present (d (team_link t)) = false ->
    main d teams = Ok r ->
    Forall (fun prow => Team prow <> visit_name d t) (Participants r)
    /\ exists row,
        In row (Teams r) /\ Team_Name row = visit_name d t
        /\ feqv (Team_Gifts row) fzero /\ feqv (Total_Raised row) fzero
        /\ Team_Raffle_Tickets row = 0%Z.

(** C9 as stated: every member record has an amount that is not
    negative. *)
Definition amounts_nonnegative (d : driver) (t : team) : Prop :=
  Forall (fun m => fle fzero (amount m) = true) (visit_members d t).

(** ** Pages used as examples *)

Definition ex_block (name raised : string) : block :=
  {| participant_name := Some name; participant_raised := Some raised |}.

Definition ex_team (link : string) : team :=
  {| team_name := ""; team_link := link |}.

(** Team Alpha: two members and a Team Gifts block. *)
Definition ex_alpha : detail_page :=
  {| user_info_h2 := Some " Alpha "; personal_header := None;
     members_present := true;
     member_blocks := [ex_block "Alice" "$45.00"; ex_block "Bob" "$10.00";
                       ex_block "Team Gifts" "$60.00"] |}.

(** A second page whose header also reads Alpha. *)
Definition ex_alpha_again : detail_page :=
  {| user_info_h2 := Some "Alpha"; personal_header := None;
     members_present := true;
     member_blocks := [ex_block "Carol" "$5.00";
                       ex_block "TEAM GIFTS" "$10.00"] |}.

(** A page with no header at all, and members. *)
Definition ex_nameless : detail_page :=
  {| user_info_h2 := None; personal_header := None;
     members_present := true;
     member_blocks := [ex_block "Dave" "$45.00";
                       ex_block "Team Gifts" "$60.00"] |}.

(** A page on which nothing shows up in time. *)
Definition ex_blank : detail_page :=
  {| user_info_h2 := None; personal_header := None;
     members_present := false; member_blocks := [] |}.

(** A page with the name in the second header only, two Team Gifts
    blocks, an amount that does not parse, a negative amount and a block
    without its amount element. *)
Definition ex_beta : detail_page :=
  {| user_info_h2 := None; personal_header := Some "Beta";
     members_present := true;
     member_blocks := [ex_block "Team Gifts" "$20.00";
                       ex_block "Erin" "N/A";
                       ex_block "Frank" "-$5.00";
                       {| participant_name := Some "Gina";
                          participant_raised := None |};
                       ex_block " team gifts " "$1,234.50"] |}.

Definition ex_site : driver :=
  fun link =>
    if String.eqb link "alpha" then ex_alpha
    else if String.eqb link "alpha2" then ex_alpha_again
    else if String.eqb link "nameless" then ex_nameless
    else if String.eqb link "beta" then ex_beta
    else ex_blank.

(** The report of a run over team Alpha alone. *)
Definition ex_alpha_report : report :=
  {| Participants :=
       [{| Full_Name := "Alice"; Team := "Alpha"; Amount_Raised := Fin 45.00;
           Attendance := ""; Shirt_Size := ""; Raffle_Tickets := 1 |};
        {| Full_Name := "Bob"; Team := "Alpha"; Amount_Raised := Fin 10.00;
           Attendance := ""; Shirt_Size := ""; Raffle_Tickets := 0 |}];
     Teams :=
       [{| Team_Name := "Alpha"; Members := "Alice, Bob";
           Team_Gifts := Fin 60.00;
           Total_Raised := fadd (fadd (fadd fzero (Fin 45.00)) (Fin 10.00))
                             (Fin 60.00);
           Team_Raffle_Tickets := 2; Camera_Collected := "" |}] |}.

(** ** Notions of the further properties *)

(** The names of a list without repeats, each at its first place. *)
Definition add_name (seen : list string) (n : string) : list string :=
  if existsb (String.eqb n) seen then seen else seen ++ [n].

Definition first_seen (names : list string) : list string :=
  fold_left add_name names [].

(** A float that is neither an infinity nor nan. *)
Definition finite (x : pyfloat) : Prop :=
  match x with
  | Fin _ => True
  | _ => False
  end.

(** The pages a run loaded, in order. *)
Definition navigated (es : list effect) : list string :=
  flat_map (fun e => match e with
                     | Navigate url => [url]
                     | _ => []
                     end) es.

(** The workbooks a run wrote, in order. *)
Definition saved (es : list effect) : list report :=
  flat_map (fun e => match e with
                     | SaveWorkbook _ r => [r]
                     | _ => []
                     end) es.

(** No amount text of the page of [t] has the letter n. *)
Definition no_letter_n (d : driver) (t : team) : Prop :=
  forall b raised,
    In b (member_blocks (d (team_link t))) ->
    participant_raised b = Some raised ->
    has_char "n" raised = false /\ has_char "N" raised = false.

(** Every amount text of the page of [t] is at most 300 characters long
    and has none of the letters n and e, in either case: it spells no
    nan and no infinity, has no exponent, and is too short for its
    number to leave the range of a float. *)
Definition plain_amount_texts (d : driver) (t : team) : Prop :=
  forall b raised,
    In b (member_blocks (d (team_link t))) ->
    participant_raised b = Some raised ->
    (String.length raised <= 300)%nat
    /\ has_char "n" raised = false /\ has_char "N" raised = false
    /\ has_char "e" raised = false /\ has_char "E" raised = false.

(** Every character of [s] passes [p]. *)
Fixpoint all_chars (p : ascii -> bool) (s : string) : bool :=
  match s with
  | EmptyString => true
  | String c r => (p c && all_chars p r)%bool
  end.

(** A digit, a dollar sign or a comma. *)
Definition money_char (c : ascii) : bool :=
  (is_digit c || Ascii.eqb c "$" || Ascii.eqb c ",")%bool.

(** A digit or the decimal point. *)
Definition numeral_char (c : ascii) : bool :=
  (is_digit c || Ascii.eqb c ".")%bool.

(** The number the digits of [s] spell after [acc], whatever stands
    between them. *)
Fixpoint decimal_value (s : string) (acc : N) : N :=
  match s with
  | EmptyString => acc
  | String c r =>
      if is_digit c then decimal_value r (acc * 10 + digit_val c)%N
      else decimal_value r acc
  end.

(** The number of digits of [s]. *)
Fixpoint digit_count (s : string) : nat :=
  match s with
  | EmptyString => O
  | String c r => if is_digit c then S (digit_count r) else digit_count r
  end.

(** The digits of [s]. *)
Fixpoint digits_of (s : string) : string :=
  match s with
  | EmptyString => EmptyString
  | String c r => if is_digit c then String c (digits_of r) else digits_of r
  end.

(** A browser for the examples: the list page has the links of Alpha and
    Beta, and no cookie button. *)
Definition ex_browser : browser :=
  {| list_page_at := fun _ => {| accept_clickable := false;
                                 team_list_links := ["alpha"; "beta"] |};
     detail_page_at := ex_site |}.

(** A browser whose list page shows no link. *)
Definition ex_empty_browser : browser :=
  {| list_page_at := fun _ => {| accept_clickable := true;
                                 team_list_links := [] |};
     detail_page_at := ex_site |}.

(** * Part III: properties

    ** The program on examples *)

Example calculate_tickets_binary64_points :
  calculate_tickets_binary64 30%float = Ok 1
  /\ calculate_tickets_binary64 f49_999 = Ok 1
  /\ calculate_tickets_binary64 50%float = Ok 2
  /\ calculate_tickets_binary64 1030%float = Ok 50
  /\ calculate_tickets_binary64 10000%float = Ok 50
  /\ calculate_tickets_binary64 f29_999 = Ok 0
  /\ calculate_tickets_binary64 (-5)%float = Ok 0
  /\ calculate_tickets_binary64 nan = Raise ValueError
  /\ calculate_tickets_binary64 infinity = Raise OverflowError
  /\ calculate_tickets_binary64 neg_infinity = Ok 0.
Proof. repeat split; reflexivity. Qed.

Example ct_30 : calculate_tickets (of_int 30) = Ok 1.
Proof. reflexivity. Qed.

Example ct_49999 : calculate_tickets (Fin (49999 # 1000)) = Ok 1.
Proof. reflexivity. Qed.

Example ct_nan : calculate_tickets NaN = Raise ValueError.
Proof. reflexivity. Qed.

Example ct_inf : calculate_tickets PInf = Raise OverflowError.
Proof. reflexivity. Qed.

Example py_float_plain : py_float "1234.50" = Ok (Fin (123450 # 100)).
Proof. reflexivity. Qed.

Example py_float_negative : py_float " -5.0e-1 " = Ok (Fin (- (50 # 100))).
Proof. reflexivity. Qed.

Example py_float_specials :
  py_float "-Infinity" = Ok NInf /\ py_float "nAn" = Ok NaN.
Proof. split; reflexivity. Qed.

Example py_float_rejects :
  py_float "" = Raise ValueError /\ py_float "1 2" = Raise ValueError
  /\ py_float "." = Raise ValueError /\ py_float "1e" = Raise ValueError
  /\ py_float "1__0" = Raise ValueError /\ py_float "N/A" = Raise ValueError.
Proof. repeat split; reflexivity. Qed.

(** ** Dictionaries *)

Section Dict.
Context {V : Type}.
Implicit Types (d : dict V) (k : string) (v : V).

Lemma dict_get_set k k' v d :
  dict_get k (dict_set k' v d) =
  if String.eqb k' k then Some v else dict_get k d.
Proof.
  induction d as [|[k0 v0] r IH]; simpl.
  - destruct (String.eqb k' k); reflexivity.
  - destruct (String.eqb k0 k') eqn:E0; simpl.
    + apply String.eqb_eq in E0; subst k0.
      destruct (String.eqb k' k); reflexivity.
    + rewrite IH. destruct (String.eqb k0 k) eqn:E1; [|reflexivity].
      apply String.eqb_eq in E1; subst k0.
      rewrite String.eqb_sym, E0. reflexivity.
Qed.

Lemma dict_get_adjust k k' (f : V -> V) d :
  dict_get k (dict_adjust k' f d) =
  if String.eqb k' k then option_map f (dict_get k d) else dict_get k d.
Proof.
  unfold dict_adjust. destruct (dict_get k' d) as [v|] eqn:G.
  - rewrite dict_get_set. destruct (String.eqb k' k) eqn:E; [|reflexivity].
    apply String.eqb_eq in E; subst k'. rewrite G. reflexivity.
  - destruct (String.eqb k' k) eqn:E; [|reflexivity].
    apply String.eqb_eq in E; subst k'. rewrite G. reflexivity.
Qed.

Lemma dict_get_In k v d : dict_get k d = Some v -> In (k, v) d.
Proof.
  induction d as [|[k0 v0] r IH]; simpl; [discriminate|].
  destruct (String.eqb k0 k) eqn:E.
  - apply String.eqb_eq in E; subst k0. intros [= ->]. now left.
  - intros H. right. now apply IH.
Qed.
End Dict.

(** ** One visit of the aggregation loop *)

Lemma fold_entry_step ms e :
  fold_left entry_step ms e =
  {| members := members e ++ map full_name ms;
     total := fold_left fadd (map amount ms) (total e);
     team_gifts := team_gifts e |}.
Proof.
  revert e. induction ms as [|m ms IH]; intros e; simpl.
  - rewrite app_nil_r. now destruct e.
  - rewrite IH. simpl. now rewrite <- app_assoc.
Qed.

Lemma member_copy (m : member) :
  {| full_name := full_name m; amount := amount m;
     member_team := member_team m |} = m.
Proof. now destruct m. Qed.

Lemma fold_member_step key ms pd td :
  exists td',
    fold_left (member_step key) ms (pd, td) = (pd ++ ms, td') /\
    forall k, dict_get k td' =
              if String.eqb key k
              then option_map (fun e => fold_left entry_step ms e) (dict_get k td)
              else dict_get k td.
Proof.
  revert pd td. induction ms as [|m ms IH]; intros pd td; simpl.
  - exists td. rewrite app_nil_r. split; [reflexivity|].
    intros k. destruct (String.eqb key k); [|reflexivity].
    now destruct (dict_get k td).
  - rewrite member_copy.
    destruct (IH (pd ++ [m])
                (dict_adjust key (add_total (amount m))
                   (dict_adjust key (append_member (full_name m)) td)))
      as (td' & Hf & Hg).
    exists td'. rewrite Hf, <- app_assoc. split; [reflexivity|].
    intros k. rewrite Hg, !dict_get_adjust.
    destruct (String.eqb key k); [|reflexivity].
    now destruct (dict_get k td).
Qed.

Lemma record_visit_spec key ms gifts pd td :
  exists td',
    record_visit key ms gifts pd td = (pd ++ ms, td') /\
    forall k, dict_get k td' =
              if String.eqb key k
              then Some (entry_after (dict_get key td) ms gifts)
              else dict_get k td.
Proof.
  unfold record_visit.
  set (td1 := match dict_get key td with
              | None => _
              | Some _ => _
              end).
  destruct (fold_member_step key ms pd td1) as (td2 & Hf & Hg).
  rewrite Hf. eexists. split; [reflexivity|].
  intros k. rewrite dict_get_adjust, Hg.
  destruct (String.eqb key k) eqn:E; [|].
  - apply String.eqb_eq in E; subst k. subst td1.
    destruct (dict_get key td) as [e|] eqn:G.
    + rewrite dict_get_adjust, String.eqb_refl, G. simpl.
      rewrite fold_entry_step. reflexivity.
    + rewrite dict_get_set, String.eqb_refl. simpl.
      rewrite fold_entry_step. reflexivity.
  - subst td1. destruct (dict_get key td) as [e|] eqn:G.
    + now rewrite dict_get_adjust, E.
    + now rewrite dict_get_set, E.
Qed.

(** ** The whole loop *)

Lemma scrape_team_members_eta d t :
  scrape_team_members d t =
  ({| team_name := visit_name d t; team_link := team_link t |},
   (visit_members d t, visit_gifts d t), visit_printed d t).
Proof.
  unfold visit_name, visit_members, visit_gifts, visit_printed,
    scrape_team_members.
  destruct (members_present (d (team_link t))); [|reflexivity].
  destruct (fold_left _ _ _) as [[ms g] out]. reflexivity.
Qed.

Lemma visit_name_eq d t : visit_name d t = detail_team_name (d (team_link t)).
Proof.
  unfold visit_name, scrape_team_members.
  destruct (members_present (d (team_link t))); [|reflexivity].
  destruct (fold_left _ _ _) as [[ms g] out]. reflexivity.
Qed.

Lemma visit_spec d st t :
  participant_data (visit d st t) = participant_data st ++ visit_members d t /\
  printed (visit d st t) = printed st ++ visit_printed d t /\
  forall k,
    dict_get k (team_data (visit d st t)) =
    if String.eqb (visit_name d t) k
    then Some (entry_after (dict_get (visit_name d t) (team_data st))
                 (visit_members d t) (visit_gifts d t))
    else dict_get k (team_data st).
Proof.
  unfold visit. rewrite scrape_team_members_eta. cbn [team_name].
  destruct (record_visit_spec (visit_name d t) (visit_members d t)
              (visit_gifts d t) (participant_data st) (team_data st))
    as (td' & Hr & Hg).
  rewrite Hr. cbn. auto.
Qed.

Lemma fold_visit_spec d teams st :
  let st' := fold_left (visit d) teams st in
  participant_data st' = participant_data st ++ flat_map (visit_members d) teams /\
  printed st' = printed st ++ flat_map (visit_printed d) teams /\
  forall k, dict_get k (team_data st') =
            entry_after_all d (visits_to d k teams) (dict_get k (team_data st)).
Proof.
  revert st. induction teams as [|t teams IH]; intros st; simpl.
  - rewrite !app_nil_r. auto.
  - destruct (IH (visit d st t)) as (Hp & Ho & Hg).
    destruct (visit_spec d st t) as (Vp & Vo & Vg).
    rewrite Hp, Ho, Vp, Vo, <- !app_assoc. repeat split.
    intros k. rewrite Hg, Vg.
    destruct (String.eqb (visit_name d t) k) eqn:E; [|reflexivity].
    apply String.eqb_eq in E. subst k. reflexivity.
Qed.

Lemma last_cons {A : Type} (l : list A) (x dflt : A) :
  last (x :: l) dflt = last l x.
Proof.
  revert x dflt. induction l as [|y l IH]; intros x dflt; [reflexivity|].
  change (last (x :: y :: l) dflt) with (last (y :: l) dflt).
  rewrite !IH. reflexivity.
Qed.

Lemma entry_after_all_some d ts e :
  entry_after_all d ts (Some e) =
  Some {| members := members e
                     ++ flat_map (fun t => map full_name (visit_members d t)) ts;
          total := running_total d ts (total e);
          team_gifts := last (map (visit_gifts d) ts) (team_gifts e) |}.
Proof.
  revert e. induction ts as [|t ts IH]; intros e.
  - simpl. rewrite app_nil_r. now destruct e.
  - unfold entry_after_all in *. cbn [fold_left]. rewrite IH.
    cbn [entry_after members total team_gifts running_total fold_left
         flat_map map].
    rewrite <- app_assoc, last_cons. reflexivity.
Qed.

Lemma entry_after_all_none d t ts :
  entry_after_all d (t :: ts) None =
  Some {| members := flat_map (fun t => map full_name (visit_members d t))
                       (t :: ts);
          total := running_total d (t :: ts) fzero;
          team_gifts := last (map (visit_gifts d) (t :: ts)) fzero |}.
Proof.
  unfold entry_after_all. cbn [fold_left].
  change (fold_left _ ts ?x) with (entry_after_all d ts x).
  rewrite entry_after_all_some. cbn [entry_after members total team_gifts].
  cbn [map]. rewrite last_cons. reflexivity.
Qed.

(** The table of teams at the end of a run. *)
Lemma aggregate_team_data d teams k :
  dict_get k (team_data (aggregate d teams)) =
  match visits_to d k teams with
  | [] => None
  | ts =>
      Some {| members := flat_map (fun t => map full_name (visit_members d t)) ts;
              total := running_total d ts fzero;
              team_gifts := last (map (visit_gifts d) ts) fzero |}
  end.
Proof.
  unfold aggregate.
  destruct (fold_visit_spec d teams initial) as (_ & _ & Hg).
  rewrite Hg. cbn [initial team_data dict_get].
  destruct (visits_to d k teams) as [|t ts]; [reflexivity|].
  apply entry_after_all_none.
Qed.

Lemma aggregate_participant_data d teams :
  participant_data (aggregate d teams) = flat_map (visit_members d) teams.
Proof.
  unfold aggregate.
  destruct (fold_visit_spec d teams initial) as (Hp & _ & _).
  exact Hp.
Qed.

(** ** The loop over the blocks of a page *)

Lemma fold_block_step tname bs ms g out :
  fold_left (block_step tname) bs (ms, g, out) =
  (ms ++ map (member_of tname) (filter (fun x => negb (is_gift x)) (readable bs)),
   last (map snd (filter is_gift (readable bs))) g,
   out ++ map (fun _ => SkippingBlock tname) (filter skipped bs)).
Proof.
  revert ms g out. induction bs as [|b bs IH]; intros ms g out.
  - simpl. now rewrite !app_nil_r.
  - cbn [fold_left filter].
    change (readable (b :: bs))
      with (match read_block b with Some x => [x] | None => [] end
            ++ readable bs).
    unfold block_step at 2.
    destruct (read_block b) as [[name a]|] eqn:R.
    + assert (Hs : skipped b = false) by (unfold skipped; now rewrite R).
      rewrite Hs. cbn [app filter].
      change (is_gift (name, a)) with (is_team_gifts name).
      destruct (is_team_gifts name); cbn [negb map snd]; rewrite IH.
      * rewrite last_cons. reflexivity.
      * rewrite <- app_assoc. reflexivity.
    + assert (Hs : skipped b = true) by (unfold skipped; now rewrite R).
      rewrite Hs. cbn [app map]. rewrite IH, <- app_assoc. reflexivity.
Qed.

Lemma scrape_team_members_present d t :
  members_present (d (team_link t)) = true ->
  let bs := member_blocks (d (team_link t)) in
  let tname := detail_team_name (d (team_link t)) in
  visit_members d t =
    map (member_of tname) (filter (fun x => negb (is_gift x)) (readable bs)) /\
  visit_gifts d t = last (map snd (filter is_gift (readable bs))) fzero /\
  visit_printed d t = map (fun _ => SkippingBlock tname) (filter skipped bs).
Proof.
  intros Hp. unfold visit_members, visit_gifts, visit_printed,
    scrape_team_members. rewrite Hp. cbn [team_name].
  rewrite fold_block_step. cbn. auto.
Qed.

Lemma scrape_team_members_absent d t :
  members_present (d (team_link t)) = false ->
  visit_members d t = [] /\ visit_gifts d t = fzero /\
  visit_printed d t = [CouldNotFindBlocks (detail_team_name (d (team_link t)))].
Proof.
  intros Hp. unfold visit_members, visit_gifts, visit_printed,
    scrape_team_members. rewrite Hp. cbn. auto.
Qed.

(** ** Floats as values *)

#[export] Instance feqv_Equivalence : Equivalence feqv.
Proof.
  split.
  - intros []; simpl; auto with qarith.
  - intros [] []; simpl; auto with qarith.
  - intros [] [] []; simpl; try tauto. apply Qeq_trans.
Qed.

(** ** The members of a team *)

Lemma visit_members_team d t m :
  In m (visit_members d t) -> member_team m = visit_name d t.
Proof.
  rewrite visit_name_eq.
  destruct (members_present (d (team_link t))) eqn:Hp.
  - destruct (scrape_team_members_present d t Hp) as (Hm & _). rewrite Hm.
    intros Hin. apply in_map_iff in Hin. destruct Hin as (x & <- & _).
    reflexivity.
  - destruct (scrape_team_members_absent d t Hp) as (Hm & _). rewrite Hm.
    intros [].
Qed.

Lemma filter_all {A : Type} (f : A -> bool) (l : list A) :
  (forall x, In x l -> f x = true) -> filter f l = l.
Proof.
  induction l as [|x l IH]; intros H; simpl; [reflexivity|].
  rewrite (H x (or_introl eq_refl)), IH; [reflexivity|].
  intros y Hy. apply H. now right.
Qed.

Lemma filter_none {A : Type} (f : A -> bool) (l : list A) :
  (forall x, In x l -> f x = false) -> filter f l = [].
Proof.
  induction l as [|x l IH]; intros H; simpl; [reflexivity|].
  rewrite (H x (or_introl eq_refl)), IH; [reflexivity|].
  intros y Hy. apply H. now right.
Qed.


(** ** The ticket formula (C1, C10) *)

Lemma calculate_tickets_finite (a : Q) :
  calculate_tickets (Fin a) =
  if Qle_bool 30 a then Ok (Z.min (Qfloor ((a - 30) / 20) + 1) 50) else Ok 0.
Proof.
  unfold calculate_tickets, flt, of_int.
  change (Qle_bool (inject_Z 30) a) with (Qle_bool 30 a).
  destruct (Qle_bool 30 a); reflexivity.
Qed.

Lemma floor_step_nonneg (a : Q) :
  (30 <= a)%Q -> (0 <= Qfloor ((a - 30) / 20))%Z.
Proof.
  intros H. change 0%Z with (Qfloor 0). apply Qfloor_resp_le.
  apply Qle_shift_div_l; [reflexivity | lra].
Qed.

(** C1: [calculate_tickets(amount)] is 0 when [amount < 30] (for every
    float, the infinities and nan included), and for every finite
    amount that is not below 30 it is
    [min(floor((amount - 30) / 20) + 1, 50)]; at 30, 49.999, 50, 1030 and
    10000 it is 1, 1, 2, 50 and 50. *)
Theorem calculate_tickets_formula :
  (forall x : pyfloat, flt x (of_int 30) = true -> calculate_tickets x = Ok 0%Z)
  /\ (forall a : Q, (a < 30)%Q -> calculate_tickets (Fin a) = Ok 0%Z)
  /\ (forall a : Q, ~ (a < 30)%Q ->
        calculate_tickets (Fin a)
        = Ok (Z.min (Qfloor ((a - 30) / 20) + 1) 50))
  /\ calculate_tickets (Fin 30) = Ok 1%Z
  /\ calculate_tickets (Fin 49.999) = Ok 1%Z
  /\ calculate_tickets (Fin 50) = Ok 2%Z
  /\ calculate_tickets (Fin 1030) = Ok 50%Z
  /\ calculate_tickets (Fin 10000) = Ok 50%Z.
Proof.
  split; [|split; [|split]].
  - intros x Hx. unfold calculate_tickets. now rewrite Hx.
  - intros a Ha. rewrite calculate_tickets_finite.
    destruct (Qle_bool 30 a) eqn:E; [|reflexivity].
    apply Qle_bool_iff in E. lra.
  - intros a Ha. rewrite calculate_tickets_finite.
    destruct (Qle_bool 30 a) eqn:E; [reflexivity|].
    exfalso. apply Ha. apply Qnot_le_lt. intros Hle.
    apply Qle_bool_iff in Hle. congruence.
  - repeat split; reflexivity.
Qed.

Lemma calculate_tickets_formula_witness :
  calculate_tickets NInf = Ok 0%Z
  /\ calculate_tickets (Fin 29.999) = Ok 0%Z
  /\ calculate_tickets (Fin 70) = Ok 3%Z.
Proof.
  destruct calculate_tickets_formula as (Hlt & Hlow & Hhigh & _).
  split; [|split].
  - apply (Hlt NInf). reflexivity.
  - apply (Hlow 29.999%Q). reflexivity.
  - apply (Hhigh 70%Q). discriminate.
Defined.

(** C10: for every finite amount [calculate_tickets] returns, and what
    it returns is an integer from 0 to 50. *)
Theorem calculate_tickets_range (a : Q) :
  exists n : Z, calculate_tickets (Fin a) = Ok n /\ (0 <= n <= 50)%Z.
Proof.
  rewrite calculate_tickets_finite.
  destruct (Qle_bool 30 a) eqn:E.
  - apply Qle_bool_iff in E. pose proof (floor_step_nonneg a E).
    eexists. split; [reflexivity|]. lia.
  - exists 0%Z. split; [reflexivity|]. lia.
Qed.

(** ** The aggregation loop (C2, C3) *)




(** C3: one visit leaves the entry of the visited name with the member
    names appended to those it had (none on first sight), the total it
    had (0 on first sight) plus the member amounts and then plus this
    visit's team gifts, added once, and the team gifts field set to this
    visit's value, whatever it was before; the other entries stay, and
    the members are appended to the participants. *)
Theorem visit_updates_team d st t :
  let name := visit_name d t in
  let ms := visit_members d t in
  let gifts := visit_gifts d t in
  let st' := visit d st t in
  dict_get name (team_data st')
  = Some
      match dict_get name (team_data st) with
      | None =>
          {| members := [] ++ map full_name ms;
             total := fadd (fold_left fadd (map amount ms) fzero) gifts;
             team_gifts := gifts |}
      | Some e =>
          {| members := members e ++ map full_name ms;
             total := fadd (fold_left fadd (map amount ms) (total e)) gifts;
             team_gifts := gifts |}
      end
  /\ (forall k, String.eqb name k = false ->
                dict_get k (team_data st') = dict_get k (team_data st))
  /\ participant_data st' = participant_data st ++ ms.
Proof.
  intros name ms gifts st'. subst name ms gifts st'.
  destruct (visit_spec d st t) as (Hp & _ & Hg).
  split; [|split].
  - rewrite Hg, String.eqb_refl. unfold entry_after.
    destruct (dict_get (visit_name d t) (team_data st)); reflexivity.
  - intros k Hk. now rewrite Hg, Hk.
  - exact Hp.
Qed.

Lemma visit_updates_team_witness :
  dict_get "Alpha" (team_data (visit ex_site initial (ex_team "alpha")))
  = Some {| members := ["Alice"; "Bob"];
            total := fadd (fadd (fadd fzero (Fin 45.00)) (Fin 10.00)) (Fin 60.00);
            team_gifts := Fin 60.00 |}
  /\ dict_get "Beta"
       (team_data (visit ex_site (visit ex_site initial (ex_team "alpha"))
                     (ex_team "alpha2")))
     = dict_get "Beta" (team_data (visit ex_site initial (ex_team "alpha"))).
Proof.
  set (st := visit ex_site initial (ex_team "alpha")). split.
  - destruct (visit_updates_team ex_site initial (ex_team "alpha"))
      as (H & _ & _).
    exact H.
  - destruct (visit_updates_team ex_site st (ex_team "alpha2"))
      as (_ & H & _).
    apply H. reflexivity.
Defined.

(** ** The blocks of a detail page (C4, C5, C6) *)

Lemma py_float_raises s e : py_float s = Raise e -> e = ValueError.
Proof.
  unfold py_float. destruct (drop_underscores None s) as [s'|].
  - destruct (read_signed _); [discriminate|]. now intros [= <-].
  - now intros [= <-].
Qed.

Lemma parse_amount_total raised :
  parse_amount raised =
  Ok match py_float (amount_str raised) with
     | Ok a => a
     | Raise _ => fzero
     end.
Proof.
  unfold parse_amount.
  destruct (py_float (amount_str raised)) as [a|e] eqn:E; [reflexivity|].
  now rewrite (py_float_raises _ _ E).
Qed.

(** C4: the amount text is stripped, loses its dollar signs and commas
    and is read as a decimal, so "$1,234.50" is 1234.50; and when the
    text does not parse the block is not skipped: it is read with the
    amount 0.0, and gives a member record with that amount. *)
Theorem amount_text_parsing :
  (exists q, parse_amount "$1,234.50" = Ok (Fin q) /\ q == 1234.50)
  /\ (forall raised,
        parse_amount raised
        = Ok match py_float (remove_char "," (remove_char "$" (strip raised)))
             with
             | Ok a => a
             | Raise _ => fzero
             end)
  /\ (forall b name_text raised e,
        participant_name b = Some name_text ->
        participant_raised b = Some raised ->
        py_float (remove_char "," (remove_char "$" (strip raised))) = Raise e ->
        read_block b = Some (strip name_text, fzero)
        /\ forall tname ms g out,
            is_team_gifts (strip name_text) = false ->
            block_step tname (ms, g, out) b
            = (ms ++ [{| full_name := strip name_text; amount := fzero;
                         member_team := tname |}], g, out)).
Proof.
  split; [|split].
  - eexists. split; [reflexivity|]. reflexivity.
  - intros raised. apply parse_amount_total.
  - intros b name_text raised e Hn Hr He.
    assert (Hb : read_block b = Some (strip name_text, fzero)).
    { unfold read_block. rewrite Hn, Hr, parse_amount_total.
      unfold amount_str. now rewrite He. }
    split; [exact Hb|].
    intros tname ms g out Hg. unfold block_step. now rewrite Hb, Hg.
Qed.

Lemma amount_text_parsing_witness :
  read_block (ex_block "Erin" "N/A") = Some ("Erin", fzero)
  /\ block_step "Beta" ([], fzero, []) (ex_block "Erin" "N/A")
     = ([{| full_name := "Erin"; amount := fzero; member_team := "Beta" |}],
        fzero, []).
Proof.
  destruct amount_text_parsing as (_ & _ & H).
  destruct (H (ex_block "Erin" "N/A") "Erin" "N/A" ValueError
              eq_refl eq_refl eq_refl) as (Hb & Hs).
  split; [exact Hb|]. apply (Hs "Beta" [] fzero []). reflexivity.
Defined.

(** The test of the loop is equality up to case with "Team Gifts". *)
Lemma is_team_gifts_iff name :
  is_team_gifts name = true <-> lower name = lower "Team Gifts".
Proof. unfold is_team_gifts. apply String.eqb_eq. Qed.

(** C5: on a page whose blocks showed up, the team gifts returned is the
    amount of the last block that was read with the name "team gifts"
    (trimmed, in any case), 0.0 when there is none; the members returned
    are the other blocks read, in order, and none of them carries that
    name. *)
Theorem team_gifts_last_block_wins d t :
  members_present (d (team_link t)) = true ->
  let rd := readable (member_blocks (d (team_link t))) in
  visit_gifts d t
  = last (map snd (filter (fun x => is_team_gifts (fst x)) rd)) fzero
  /\ visit_members d t
     = map (member_of (visit_name d t))
         (filter (fun x => negb (is_team_gifts (fst x))) rd)
  /\ Forall (fun m => is_team_gifts (full_name m) = false) (visit_members d t).
Proof.
  intros Hp rd. subst rd.
  destruct (scrape_team_members_present d t Hp) as (Hm & Hg & _).
  rewrite visit_name_eq. split; [exact Hg|]. split; [exact Hm|].
  rewrite Hm. apply Forall_forall. intros m Hin.
  apply in_map_iff in Hin. destruct Hin as (x & <- & Hx).
  apply filter_In in Hx. destruct Hx as (_ & Hx).
  unfold is_gift in Hx. cbn [member_of full_name].
  now destruct (is_team_gifts (fst x)).
Qed.

Lemma team_gifts_last_block_wins_witness :
  visit_gifts ex_site (ex_team "beta") = Fin (123450 # 100)
  /\ map full_name (visit_members ex_site (ex_team "beta")) = ["Erin"; "Frank"].
Proof.
  destruct (team_gifts_last_block_wins ex_site (ex_team "beta") eq_refl)
    as (Hg & Hm & _).
  split.
  - rewrite Hg. reflexivity.
  - rewrite Hm. reflexivity.
Defined.

(** C6: the team name is the trimmed text of the first header when it is
    there; otherwise the trimmed text of the second header when that one
    is there; otherwise "Unknown Team". *)
Theorem team_name_fallback_chain d t :
  let p := d (team_link t) in
  let name := team_name (fst (fst (scrape_team_members d t))) in
  (forall text, user_info_h2 p = Some text -> name = strip text)
  /\ (forall text, user_info_h2 p = None -> personal_header p = Some text ->
                   name = strip text)
  /\ (user_info_h2 p = None -> personal_header p = None ->
      name = "Unknown Team").
Proof.
  intros p name. subst name. fold (visit_name d t). rewrite visit_name_eq.
  fold p. unfold detail_team_name.
  split; [|split].
  - intros text H. now rewrite H.
  - intros text H1 H2. now rewrite H1, H2.
  - intros H1 H2. now rewrite H1, H2.
Qed.

Lemma team_name_fallback_chain_witness :
  team_name (fst (fst (scrape_team_members ex_site (ex_team "alpha")))) = "Alpha"
  /\ team_name (fst (fst (scrape_team_members ex_site (ex_team "beta")))) = "Beta"
  /\ team_name (fst (fst (scrape_team_members ex_site (ex_team "blank"))))
     = "Unknown Team".
Proof.
  split; [|split].
  - destruct (team_name_fallback_chain ex_site (ex_team "alpha")) as (H & _).
    exact (H " Alpha " eq_refl).
  - destruct (team_name_fallback_chain ex_site (ex_team "beta")) as (_ & H & _).
    exact (H "Beta" eq_refl eq_refl).
  - destruct (team_name_fallback_chain ex_site (ex_team "blank")) as (_ & _ & H).
    exact (H eq_refl eq_refl).
Defined.

(** ** The report (C8) *)

Lemma for_each_Ok {A B : Type} (f : A -> result B) l rs :
  for_each f l = Ok rs -> Forall2 (fun x y => f x = Ok y) l rs.
Proof.
  revert rs. induction l as [|x l IH]; intros rs; simpl.
  - intros [= <-]. constructor.
  - destruct (f x) as [y|e] eqn:Ex; simpl; [|discriminate].
    destruct (for_each f l) as [ys|e]; simpl; [|discriminate].
    intros [= <-]. constructor; auto.
Qed.

Lemma Forall2_In_l {A B : Type} (R : A -> B -> Prop) l rs x :
  Forall2 R l rs -> In x l -> exists y, In y rs /\ R x y.
Proof.
  induction 1 as [|a b l rs Hab _ IH]; intros Hin; [destruct Hin|].
  destruct Hin as [->|Hin].
  - exists b. split; [now left | exact Hab].
  - destruct (IH Hin) as (y & Hy & HR). exists y. split; [now right | exact HR].
Qed.

Lemma Forall2_In_r {A B : Type} (R : A -> B -> Prop) l rs y :
  Forall2 R l rs -> In y rs -> exists x, In x l /\ R x y.
Proof.
  induction 1 as [|a b l rs Hab _ IH]; intros Hin; [destruct Hin|].
  destruct Hin as [->|Hin].
  - exists a. split; [now left | exact Hab].
  - destruct (IH Hin) as (x & Hx & HR). exists x. split; [now right | exact HR].
Qed.

Lemma participant_row_of_Ok part row :
  participant_row_of part = Ok row ->
  Full_Name row = full_name part /\ Team row = member_team part
  /\ Amount_Raised row = amount part
  /\ calculate_tickets (amount part) = Ok (Raffle_Tickets row).
Proof.
  unfold participant_row_of.
  destruct (calculate_tickets (amount part)) as [n|e]; simpl; [|discriminate].
  intros [= <-]. auto.
Qed.

Lemma team_row_of_Ok name data row :
  team_row_of (name, data) = Ok row ->
  Team_Name row = name /\ Members row = join ", " (members data)
  /\ Team_Gifts row = team_gifts data /\ Total_Raised row = total data
  /\ calculate_tickets (team_gifts data) = Ok (Team_Raffle_Tickets row).
Proof.
  unfold team_row_of.
  destruct (calculate_tickets (team_gifts data)) as [n|e]; simpl;
    [|discriminate].
  intros [= <-]. cbn. auto.
Qed.

Lemma main_Ok d teams r :
  main d teams = Ok r ->
  for_each participant_row_of (participant_data (aggregate d teams))
  = Ok (Participants r)
  /\ for_each team_row_of (team_data (aggregate d teams)) = Ok (Teams r).
Proof.
  unfold main, build_report.
  destruct (for_each participant_row_of _) as [ps|e]; simpl; [|discriminate].
  destruct (for_each team_row_of _) as [ts|e]; simpl; [|discriminate].
  intros [= <-]. auto.
Qed.

(** C8: when the report is built, its participant rows are the
    participants in order, each with the tickets of its own amount, and
    its team rows are the team entries in order, each with the tickets of
    its team gifts. *)
Theorem report_ticket_counts d teams r :
  main d teams = Ok r ->
  let st := aggregate d teams in
  Forall2
    (fun part row =>
       Full_Name row = full_name part /\ Amount_Raised row = amount part
       /\ calculate_tickets (Amount_Raised row) = Ok (Raffle_Tickets row))
    (participant_data st) (Participants r)
  /\ Forall2
       (fun item row =>
          Team_Name row = fst item
          /\ Team_Gifts row = team_gifts (snd item)
          /\ Total_Raised row = total (snd item)
          /\ calculate_tickets (Team_Gifts row) = Ok (Team_Raffle_Tickets row))
       (team_data st) (Teams r).
Proof.
  intros Hm st. subst st. destruct (main_Ok d teams r Hm) as (Hp & Ht).
  split.
  - eapply Forall2_impl; [|exact (for_each_Ok _ _ _ Hp)].
    intros part row H. apply participant_row_of_Ok in H.
    destruct H as (Hn & _ & Ha & Hc). rewrite Ha. auto.
  - eapply Forall2_impl; [|exact (for_each_Ok _ _ _ Ht)].
    intros [name data] row H. apply team_row_of_Ok in H.
    destruct H as (Hn & _ & Hg & Hs & Hc). rewrite Hg. cbn. auto.
Qed.

Example main_alpha : main ex_site [ex_team "alpha"] = Ok ex_alpha_report.
Proof. reflexivity. Qed.

(** The team row of Alpha has the 2 tickets of its team gifts of 60, and
    not the 5 tickets its total of 115 would give. *)
Example alpha_tickets_not_from_total :
  Forall (fun row =>
            calculate_tickets (Team_Gifts row) = Ok (Team_Raffle_Tickets row)
            /\ calculate_tickets (Total_Raised row) = Ok 5%Z
            /\ Team_Raffle_Tickets row = 2%Z)
    (Teams ex_alpha_report).
Proof. repeat constructor. Qed.

Lemma report_ticket_counts_witness :
  Forall2
    (fun item row =>
       Team_Name row = fst item
       /\ Team_Gifts row = team_gifts (snd item)
       /\ Total_Raised row = total (snd item)
       /\ calculate_tickets (Team_Gifts row) = Ok (Team_Raffle_Tickets row))
    (team_data (aggregate ex_site [ex_team "alpha"])) (Teams ex_alpha_report).
Proof.
  exact (proj2 (report_ticket_counts ex_site [ex_team "alpha"] ex_alpha_report
                  eq_refl)).
Defined.

(** ** A team whose blocks never show up (C7) *)

(** C7, as stated, fails: a page without headers that has a member with
    45 and team gifts of 60, then a page on which nothing shows up.
    Both are named "Unknown Team"; the one row of that name has the
    total 105 and the participant row of the first page. *)
Lemma blank_row_claim_fails_on_shared_name :
  ~ blank_row_claim ex_site [ex_team "nameless"; ex_team "blank"].
Proof.
  intros H.
  destruct (H (ex_team "blank") _ (or_intror (or_introl eq_refl)) eq_refl
              eq_refl) as (_ & row & Hin & _ & _ & Ht & _).
  destruct Hin as [<-|[]]. vm_compute in Ht. discriminate Ht.
Qed.

Lemma running_total_blank d ts :
  (forall t, In t ts -> members_present (d (team_link t)) = false) ->
  running_total d ts fzero = fzero
  /\ flat_map (fun t => map full_name (visit_members d t)) ts = []
  /\ last (map (visit_gifts d) ts) fzero = fzero.
Proof.
  induction ts as [|t ts IH]; intros H; [now cbn|].
  destruct (scrape_team_members_absent d t (H t (or_introl eq_refl)))
    as (Hm & Hg & _).
  destruct IH as (IH1 & IH2 & IH3); [intros u Hu; apply H; now right|].
  unfold running_total in *. cbn [fold_left flat_map map].
  rewrite Hm, Hg, last_cons. cbn [map fold_left app].
  change (fadd fzero fzero) with fzero. auto.
Qed.

Lemma visits_to_In d name teams t :
  In t (visits_to d name teams) <-> In t teams /\ visit_name d t = name.
Proof.
  unfold visits_to. rewrite filter_In. now rewrite String.eqb_eq.
Qed.

(** C7, amended: when the blocks of a team do not show up in time, the
    extraction prints a line and returns no member and team gifts of
    0.0, and the loop goes on with the teams that follow: the
    participants are those of the run without this team.  When every
    visit that resolves to the same name ends this way (so, when the
    name is not shared with a page that has blocks), there is no
    participant row of that name and its team row has team gifts 0.0,
    total 0.0 and 0 tickets. *)
Theorem blank_team_row d teams1 t teams2 :
  members_present (d (team_link t)) = false ->
  let name := visit_name d t in
  let teams := teams1 ++ t :: teams2 in
  scrape_team_members d t
  = ({| team_name := name; team_link := team_link t |}, ([], fzero),
     [CouldNotFindBlocks name])
  /\ participant_data (aggregate d teams)
     = participant_data (aggregate d (teams1 ++ teams2))
  /\ In (CouldNotFindBlocks name) (printed (aggregate d teams))
  /\ ((forall u, In u teams -> visit_name d u = name ->
                 members_present (d (team_link u)) = false) ->
      forall r, main d teams = Ok r ->
        Forall (fun prow => Team prow <> name) (Participants r)
        /\ exists row,
            In row (Teams r) /\ Team_Name row = name
            /\ Members row = ""
            /\ Team_Gifts row = fzero /\ Total_Raised row = fzero
            /\ Team_Raffle_Tickets row = 0%Z).
Proof.
  intros Hp name teams.
  destruct (scrape_team_members_absent d t Hp) as (Hm & Hg & Ho).
  split; [|split; [|split]].
  - rewrite scrape_team_members_eta, Hm, Hg, Ho, <- visit_name_eq.
    reflexivity.
  - subst teams. rewrite !aggregate_participant_data, !flat_map_app.
    cbn [flat_map]. now rewrite Hm.
  - unfold aggregate.
    destruct (fold_visit_spec d teams initial) as (_ & Hpr & _).
    rewrite Hpr. cbn [initial printed app]. apply in_flat_map.
    exists t. split; [subst teams; apply in_elt|].
    rewrite Ho, <- visit_name_eq. now left.
  - intros Hall r Hr. destruct (main_Ok d teams r Hr) as (Hps & Hts).
    apply for_each_Ok in Hps. apply for_each_Ok in Hts. split.
    + apply Forall_forall. intros prow Hin Hteam.
      destruct (Forall2_In_r _ _ _ _ Hps Hin) as (m & Hm_in & Hrow).
      apply participant_row_of_Ok in Hrow. destruct Hrow as (_ & Ht & _).
      rewrite aggregate_participant_data in Hm_in.
      apply in_flat_map in Hm_in. destruct Hm_in as (u & Hu & Hmu).
      pose proof (visit_members_team d u m Hmu) as Hname.
      assert (Hblank : members_present (d (team_link u)) = false).
      { apply Hall; [exact Hu|]. now rewrite <- Hname, <- Ht. }
      destruct (scrape_team_members_absent d u Hblank) as (Hnil & _).
      rewrite Hnil in Hmu. destruct Hmu.
    + pose proof (aggregate_team_data d teams name) as He.
      assert (Hin_t : In t (visits_to d name teams)).
      { apply visits_to_In. split; [subst teams; apply in_elt | reflexivity]. }
      destruct (running_total_blank d (visits_to d name teams))
        as (H1 & H2 & H3).
      { intros u Hu. apply visits_to_In in Hu. destruct Hu. now apply Hall. }
      destruct (visits_to d name teams) as [|u us] eqn:Ev; [destruct Hin_t|].
      cbv zeta in He. rewrite H1, H2, H3 in He. apply dict_get_In in He.
      destruct (Forall2_In_l _ _ _ _ Hts He) as (row & Hrow_in & Hrow).
      apply team_row_of_Ok in Hrow. cbn in Hrow.
      destruct Hrow as (Hn & Hmem & Hgf & Htot & Hc).
      exists row. repeat split; try assumption. congruence.
Qed.

Lemma blank_team_row_witness :
  exists r row,
    main ex_site [ex_team "alpha"; ex_team "blank"] = Ok r
    /\ In row (Teams r)
    /\ Team_Name row = "Unknown Team"
    /\ Team_Gifts row = fzero /\ Total_Raised row = fzero
    /\ Team_Raffle_Tickets row = 0%Z.
Proof.
  set (teams := [ex_team "alpha"; ex_team "blank"]).
  destruct (blank_team_row ex_site [ex_team "alpha"] (ex_team "blank") []
              eq_refl) as (_ & _ & _ & H).
  assert (Hall : forall u, In u teams ->
                   visit_name ex_site u = visit_name ex_site (ex_team "blank") ->
                   members_present (ex_site (team_link u)) = false).
  { intros u [<-|[<-|[]]]; [discriminate | reflexivity]. }
  destruct (main ex_site teams) as [r|e] eqn:Hr; [|discriminate Hr].
  destruct (H Hall r Hr) as (_ & row & Hin & Hn & _ & Hg & Ht & Hk).
  exists r, row.
  split; [reflexivity|]. split; [exact Hin|]. split; [exact Hn|]. auto.
Defined.

(** ** The sign of an amount (C9) *)

Lemma has_char_cons c a r :
  has_char c (String a r) = false ->
  Ascii.eqb a c = false /\ has_char c r = false.
Proof. simpl. apply orb_false_iff. Qed.

Lemma has_char_lstrip_by c sp s :
  has_char c s = false -> has_char c (lstrip_by sp s) = false.
Proof.
  induction s as [|a r IH]; [reflexivity|]. intros H.
  cbn [lstrip_by]. destruct (sp a); [|exact H].
  apply IH. now apply has_char_cons in H.
Qed.

Lemma has_char_rstrip_by c sp s :
  has_char c s = false -> has_char c (rstrip_by sp s) = false.
Proof.
  induction s as [|a r IH]; [reflexivity|]. intros H.
  apply has_char_cons in H. destruct H as (Ha & Hr). specialize (IH Hr).
  cbn [rstrip_by]. destruct (rstrip_by sp r) as [|b r'].
  - destruct (sp a); [reflexivity|]. simpl. now rewrite Ha.
  - cbn [has_char] in *. now rewrite Ha.
Qed.

Lemma has_char_remove_char c x s :
  has_char c s = false -> has_char c (remove_char x s) = false.
Proof.
  induction s as [|a r IH]; [reflexivity|]. intros H.
  apply has_char_cons in H. destruct H as (Ha & Hr). specialize (IH Hr).
  cbn [remove_char]. destruct (Ascii.eqb a x); [exact IH|].
  simpl. now rewrite Ha.
Qed.

Lemma has_char_drop_underscores c prev s s' :
  drop_underscores prev s = Some s' ->
  has_char c s = false -> has_char c s' = false.
Proof.
  revert prev s'. induction s as [|a r IH]; intros prev s'.
  - cbn [drop_underscores]. destruct (match prev with Some _ => _ | None => _ end);
      [discriminate|]. now intros [= <-].
  - cbn [drop_underscores]. intros Hd H.
    apply has_char_cons in H. destruct H as (Ha & Hr).
    destruct (Ascii.eqb a "_").
    + destruct (match prev with Some p => is_digit p | None => false end);
        [|discriminate]. eapply IH; eauto.
    + destruct (_ && _)%bool; [discriminate|].
      destruct (drop_underscores (Some a) r) as [r'|] eqn:E; [|discriminate].
      injection Hd as <-. simpl. rewrite Ha. eapply IH; eauto.
Qed.

Lemma has_char_amount_str c raised :
  has_char c raised = false -> has_char c (amount_str raised) = false.
Proof.
  intros H. unfold amount_str, strip.
  now apply has_char_remove_char, has_char_remove_char, has_char_lstrip_by,
    has_char_rstrip_by.
Qed.

Lemma scale10_nonneg m e : (0 <= scale10 m e)%Q.
Proof.
  unfold scale10. destruct e as [|p|p].
  - unfold Qle. simpl. lia.
  - unfold Qle. cbn [inject_Z Qnum Qden].
    pose proof (Z.pow_nonneg 10 (Z.pos p)). nia.
  - unfold Qle. cbn [Qnum Qden]. lia.
Qed.

Lemma read_number_nonneg s q : read_number s = Some q -> (0 <= q)%Q.
Proof.
  unfold read_number.
  destruct (read_digits s 0 0) as [[ip ni] r1].
  destruct (match r1 with String "."%char r => _ | _ => _ end) as [[m nf] r2].
  destruct (ni + nf)%nat; [discriminate|].
  destruct (read_exponent r2); [|discriminate].
  intros [= <-]. apply scale10_nonneg.
Qed.

Lemma read_abs_unsigned s v : read_abs s = Some v -> unsigned_value v.
Proof.
  unfold read_abs. destruct (_ || _)%bool; [now intros [= <-]|].
  destruct (String.eqb _ _); [now intros [= <-]|].
  destruct (read_number s) as [q|] eqn:E; [|discriminate].
  intros [= <-]. simpl. now apply read_number_nonneg in E.
Qed.

Lemma read_signed_unsigned s v :
  has_char "-" s = false -> read_signed s = Some v -> unsigned_value v.
Proof.
  destruct s as [|a r]; [intros _; apply read_abs_unsigned|].
  intros H. apply has_char_cons in H. destruct H as (Ha & _).
  destruct a as [[] [] [] [] [] [] [] []]; try discriminate Ha;
    cbn [read_signed]; apply read_abs_unsigned.
Qed.

Lemma py_float_unsigned s v :
  has_char "-" s = false -> py_float s = Ok v -> unsigned_value v.
Proof.
  intros H. unfold py_float.
  destruct (drop_underscores None s) as [s'|] eqn:E; [|discriminate].
  destruct (read_signed _) as [w|] eqn:R; [|discriminate].
  intros [= <-]. eapply read_signed_unsigned; [|exact R].
  apply has_char_lstrip_by, has_char_rstrip_by.
  eapply has_char_drop_underscores; eauto.
Qed.

Lemma unsigned_value_fle v : unsigned_value v -> v = NaN \/ fle fzero v = true.
Proof.
  destruct v as [q| | |]; simpl; intros H.
  - right. now apply Qle_bool_iff.
  - now right.
  - destruct H.
  - now left.
Qed.

Lemma read_block_unsigned b name a raised :
  read_block b = Some (name, a) ->
  participant_raised b = Some raised ->
  has_char "-" raised = false ->
  unsigned_value a.
Proof.
  unfold read_block. destruct (participant_name b); [|discriminate].
  destruct (participant_raised b) as [r0|]; [|discriminate].
  rewrite parse_amount_total. intros [= _ <-] [= ->] H.
  destruct (py_float (amount_str raised)) as [v|e] eqn:E.
  - eapply py_float_unsigned; [|exact E]. now apply has_char_amount_str.
  - simpl. apply Qle_refl.
Qed.

(** C9, as stated, fails: the block of Frank on page Beta reads "-$5.00",
    and his record has the amount -5. *)
Lemma amounts_nonnegative_fails_on_minus :
  ~ amounts_nonnegative ex_site (ex_team "beta").
Proof.
  intros H. unfold amounts_nonnegative in H.
  rewrite Forall_forall in H.
  assert (Hin : In {| full_name := "Frank"; amount := Fin (- (500 # 100));
                      member_team := "Beta" |}
                  (visit_members ex_site (ex_team "beta")))
    by (right; left; reflexivity).
  apply H in Hin. discriminate Hin.
Qed.

Lemma readable_In bs x :
  In x (readable bs) <-> exists b, In b bs /\ read_block b = Some x.
Proof.
  unfold readable. rewrite in_flat_map. split.
  - intros (b & Hb & Hx). exists b. split; [exact Hb|].
    destruct (read_block b) as [y|]; [|destruct Hx].
    destruct Hx as [->|[]]. reflexivity.
  - intros (b & Hb & Hx). exists b. split; [exact Hb|].
    rewrite Hx. now left.
Qed.

(** C9, amended: the amount of every member record is what its block
    was read with; and when the amount text of that block carries no
    minus sign, the amount is not negative, or is nan (for a text that
    spells nan). *)
Theorem amounts_nonnegative_without_minus d t :
  Forall
    (fun m =>
       exists b raised,
         In b (member_blocks (d (team_link t)))
         /\ participant_raised b = Some raised
         /\ read_block b = Some (full_name m, amount m)
         /\ (has_char "-" raised = false ->
             amount m = NaN \/ fle fzero (amount m) = true))
    (visit_members d t).
Proof.
  apply Forall_forall. intros m Hm.
  destruct (members_present (d (team_link t))) eqn:Hp.
  - destruct (scrape_team_members_present d t Hp) as (Hms & _).
    rewrite Hms in Hm. apply in_map_iff in Hm.
    destruct Hm as ([name a] & <- & Hx). apply filter_In in Hx.
    destruct Hx as (Hx & _). apply readable_In in Hx.
    destruct Hx as (b & Hb & Hr). cbn [member_of full_name amount fst snd].
    destruct (participant_raised b) as [raised|] eqn:Er.
    + exists b, raised. repeat split; try assumption.
      intros Hminus. apply unsigned_value_fle.
      eapply read_block_unsigned; eauto.
    + unfold read_block in Hr. rewrite Er in Hr.
      destruct (participant_name b); discriminate.
  - destruct (scrape_team_members_absent d t Hp) as (Hms & _).
    rewrite Hms in Hm. destruct Hm.
Qed.

Lemma amounts_nonnegative_without_minus_witness :
  Forall (fun m => amount m = NaN \/ fle fzero (amount m) = true)
    (visit_members ex_site (ex_team "alpha")).
Proof.
  eapply Forall_impl;
    [|exact (amounts_nonnegative_without_minus ex_site (ex_team "alpha"))].
  intros m (b & raised & Hb & Hr & _ & H). apply H.
  destruct Hb as [<-|[<-|[<-|[]]]]; injection Hr as <-; reflexivity.
Defined.

(** ** When the report is built *)

Lemma calculate_tickets_returns x :
  returns_tickets x = true <-> exists n, calculate_tickets x = Ok n.
Proof.
  destruct x as [a| | |]; simpl.
  - split; [intros _|reflexivity].
    rewrite calculate_tickets_finite. destruct (Qle_bool 30 a); eauto.
  - split; [discriminate|]. now intros (n & [=]).
  - split; [intros _|reflexivity]. now exists 0%Z.
  - split; [discriminate|]. now intros (n & [=]).
Qed.

Lemma for_each_returns {A B : Type} (f : A -> result B) l :
  Forall (fun x => exists y, f x = Ok y) l -> exists rs, for_each f l = Ok rs.
Proof.
  induction 1 as [|x l (y & Hy) _ (rs & Hrs)]; simpl.
  - now exists [].
  - rewrite Hy, Hrs. simpl. now exists (y :: rs).
Qed.

(** The report is built when no amount and no team gifts is nan or
    positive infinity. *)
Lemma main_returns d teams :
  let st := aggregate d teams in
  Forall (fun m => returns_tickets (amount m) = true) (participant_data st) ->
  Forall (fun item => returns_tickets (team_gifts (snd item)) = true)
    (team_data st) ->
  exists r, main d teams = Ok r.
Proof.
  intros st Hp Ht. unfold main, build_report. fold st.
  destruct (for_each_returns participant_row_of (participant_data st))
    as (ps & Hps).
  { eapply Forall_impl; [|exact Hp]. intros m Hm.
    apply calculate_tickets_returns in Hm. destruct Hm as (n & Hn).
    unfold participant_row_of. rewrite Hn. simpl. eauto. }
  destruct (for_each_returns team_row_of (team_data st)) as (ts & Hts).
  { eapply Forall_impl; [|exact Ht]. intros [name data] Hm.
    apply calculate_tickets_returns in Hm. destruct Hm as (n & Hn).
    unfold team_row_of. cbn [snd] in Hn. rewrite Hn. simpl. eauto. }
  rewrite Hps, Hts. simpl. eauto.
Qed.

(** * Part IV: further properties

    ** The ticket formula as a staircase *)

(** An integer is below the floor of [x] exactly when it is below [x]. *)
Lemma Qfloor_ge (z : Z) (x : Q) : (z <= Qfloor x)%Z <-> (inject_Z z <= x)%Q.
Proof.
  split; intros H.
  - apply Qle_trans with (inject_Z (Qfloor x)); [|apply Qfloor_le].
    rewrite <- Zle_Qle. exact H.
  - rewrite <- (Qfloor_Z z). now apply Qfloor_resp_le.
Qed.

Lemma step_ge (z : Z) (a : Q) :
  (inject_Z z <= (a - 30) / 20)%Q <-> (30 + 20 * inject_Z z <= a)%Q.
Proof.
  assert (Ht : (a == 30 + 20 * ((a - 30) / 20))%Q) by field.
  set (t := ((a - 30) / 20)%Q) in *. split; intros H; lra.
Qed.

(** X1: a larger finite amount never gives fewer tickets. *)
Theorem calculate_tickets_monotone (a b : Q) :
  (a <= b)%Q ->
  exists m n,
    calculate_tickets (Fin a) = Ok m /\ calculate_tickets (Fin b) = Ok n
    /\ (m <= n)%Z.
Proof.
  intros Hab. rewrite !calculate_tickets_finite.
  destruct (Qle_bool 30 a) eqn:Ea; destruct (Qle_bool 30 b) eqn:Eb.
  - do 2 eexists. repeat split. apply Z.min_le_compat_r.
    apply Z.add_le_mono_r. apply Qfloor_resp_le.
    apply Qmult_le_compat_r; [|discriminate].
    apply Qplus_le_compat; [exact Hab | apply Qle_refl].
  - apply Qle_bool_iff in Ea.
    assert (Hb : ~ (30 <= b)%Q) by (rewrite <- Qle_bool_iff; congruence).
    exfalso. lra.
  - apply Qle_bool_iff in Eb. pose proof (floor_step_nonneg b Eb).
    do 2 eexists. repeat split. lia.
  - do 2 eexists. repeat split. lia.
Qed.

Lemma calculate_tickets_monotone_witness :
  exists m n,
    calculate_tickets (Fin 45) = Ok m /\ calculate_tickets (Fin 1000) = Ok n
    /\ (m <= n)%Z.
Proof.
  apply (calculate_tickets_monotone 45 1000). discriminate.
Defined.

Lemma Ok_inj {A : Type} (a b : A) : Ok a = Ok b -> a = b.
Proof. now intros [= ->]. Qed.

(** X2: the tickets of a finite amount are 0 exactly below 30, 50
    exactly from 1010 on, and [k] (from 1 to 49) exactly on the step
    from [30 + 20 (k - 1)] up to, but not including, [30 + 20 k]. *)
Theorem calculate_tickets_steps (a : Q) :
  (calculate_tickets (Fin a) = Ok 0%Z <-> (a < 30)%Q)
  /\ (calculate_tickets (Fin a) = Ok 50%Z <-> (1010 <= a)%Q)
  /\ forall k : Z,
      (0 < k < 50)%Z ->
      (calculate_tickets (Fin a) = Ok k
       <-> (30 + 20 * inject_Z (k - 1) <= a /\ a < 30 + 20 * inject_Z k)%Q).
Proof.
  rewrite calculate_tickets_finite.
  pose proof (Qfloor_ge 49 ((a - 30) / 20)) as H49.
  rewrite step_ge in H49. change (inject_Z 49) with 49%Q in H49.
  destruct (Qle_bool 30 a) eqn:E.
  - apply Qle_bool_iff in E. pose proof (floor_step_nonneg a E) as H0.
    split; [|split].
    + split; [intros H; apply Ok_inj in H; lia | intros H; exfalso; lra].
    + split.
      * intros H; apply Ok_inj in H. assert (H' : (49 <= Qfloor ((a - 30) / 20))%Z) by lia.
        apply H49 in H'. lra.
      * intros H. assert (H' : (49 <= Qfloor ((a - 30) / 20))%Z)
          by (apply H49; lra).
        f_equal. lia.
    + intros k Hk.
      pose proof (Qfloor_ge (k - 1) ((a - 30) / 20)) as Hlo.
      pose proof (Qfloor_ge k ((a - 30) / 20)) as Hhi.
      rewrite step_ge in Hlo, Hhi. split.
      * intros H; apply Ok_inj in H.
        assert (H1 : (k - 1 <= Qfloor ((a - 30) / 20))%Z) by lia.
        assert (H2 : ~ (k <= Qfloor ((a - 30) / 20))%Z) by lia.
        apply Hlo in H1. rewrite Hhi in H2. split; [exact H1|].
        now apply Qnot_le_lt.
      * intros (H1 & H2). apply Hlo in H1.
        assert (H3 : ~ (k <= Qfloor ((a - 30) / 20))%Z).
        { rewrite Hhi. now apply Qlt_not_le. }
        f_equal. lia.
  - assert (Hlt : (a < 30)%Q).
    { apply Qnot_le_lt. rewrite <- Qle_bool_iff. congruence. }
    split; [|split].
    + tauto.
    + split; [discriminate | intros H; exfalso; lra].
    + intros k Hk. split.
      * intros H; apply Ok_inj in H. lia.
      * intros (H1 & _).
        assert (H0 : (inject_Z 0 <= inject_Z (k - 1))%Q)
          by (rewrite <- Zle_Qle; lia).
        change (inject_Z 0) with 0%Q in H0. exfalso. lra.
Qed.

Lemma calculate_tickets_steps_witness :
  calculate_tickets (Fin 89.99) = Ok 3%Z.
Proof.
  destruct (calculate_tickets_steps 89.99) as (_ & _ & H).
  apply (H 3%Z); [lia|]. split; [discriminate | reflexivity].
Defined.

(** X3: [calculate_tickets] raises exactly on nan ([ValueError]) and on
    positive infinity ([OverflowError]); on every other float, negative
    infinity included, it returns. *)
Theorem calculate_tickets_raises (x : pyfloat) (e : exn) :
  calculate_tickets x = Raise e
  <-> (x = NaN /\ e = ValueError) \/ (x = PInf /\ e = OverflowError).
Proof.
  destruct x as [a| | |].
  - rewrite calculate_tickets_finite. split.
    + destruct (Qle_bool 30 a); discriminate.
    + intros [(H & _)|(H & _)]; discriminate.
  - split.
    + intros [= <-]. now right.
    + intros [(H & _)|(_ & ->)]; [discriminate | reflexivity].
  - split; [discriminate|]. intros [(H & _)|(H & _)]; discriminate.
  - split.
    + intros [= <-]. now left.
    + intros [(_ & ->)|(H & _)]; [reflexivity | discriminate].
Qed.

(** ** A visit as one assignment *)

Lemma dict_set_set {V : Type} (k : string) (v1 v2 : V) (d : dict V) :
  dict_set k v2 (dict_set k v1 d) = dict_set k v2 d.
Proof.
  induction d as [|[k0 v0] r IH]; simpl.
  - now rewrite String.eqb_refl.
  - destruct (String.eqb k0 k) eqn:E; simpl; rewrite E; [reflexivity|].
    now rewrite IH.
Qed.

Lemma dict_adjust_set {V : Type} (k : string) (f : V -> V) (v : V)
    (d : dict V) :
  dict_adjust k f (dict_set k v d) = dict_set k (f v) d.
Proof.
  unfold dict_adjust. rewrite dict_get_set, String.eqb_refl.
  apply dict_set_set.
Qed.

Lemma fold_member_step_set key ms pd e td :
  fold_left (member_step key) ms (pd, dict_set key e td)
  = (pd ++ ms, dict_set key (fold_left entry_step ms e) td).
Proof.
  revert pd e. induction ms as [|m ms IH]; intros pd e; simpl.
  - now rewrite app_nil_r.
  - rewrite member_copy, !dict_adjust_set, IH, <- app_assoc. reflexivity.
Qed.

(** The whole turn of the loop for a team amounts to one assignment to
    its entry. *)
Lemma record_visit_eq key ms gifts pd td :
  record_visit key ms gifts pd td
  = (pd ++ ms, dict_set key (entry_after (dict_get key td) ms gifts) td).
Proof.
  unfold record_visit.
  assert (E : match dict_get key td with
              | None => dict_set key {| members := []; total := fzero;
                                        team_gifts := gifts |} td
              | Some _ => dict_adjust key (set_team_gifts gifts) td
              end
              = dict_set key
                  match dict_get key td with
                  | None => {| members := []; total := fzero;
                               team_gifts := gifts |}
                  | Some e => set_team_gifts gifts e
                  end td).
  { unfold dict_adjust. destruct (dict_get key td); reflexivity. }
  rewrite E, fold_member_step_set, dict_adjust_set, fold_entry_step.
  destruct (dict_get key td); reflexivity.
Qed.

Lemma visit_team_data d st t :
  team_data (visit d st t)
  = dict_set (visit_name d t)
      (entry_after (dict_get (visit_name d t) (team_data st))
         (visit_members d t) (visit_gifts d t))
      (team_data st).
Proof.
  unfold visit. rewrite scrape_team_members_eta. cbn [team_name].
  rewrite record_visit_eq. reflexivity.
Qed.

(** ** One team row for each name *)

Lemma keys_dict_set {V : Type} (k : string) (v : V) (d : dict V) :
  map fst (dict_set k v d) = add_name (map fst d) k.
Proof.
  unfold add_name. induction d as [|[k0 v0] r IH]; [reflexivity|].
  cbn [dict_set map fst existsb]. rewrite (String.eqb_sym k k0).
  destruct (String.eqb k0 k); cbn [map fst orb]; [reflexivity|].
  rewrite IH. now destruct (existsb (String.eqb k) (map fst r)).
Qed.

Lemma keys_fold_visit d teams st :
  map fst (team_data (fold_left (visit d) teams st))
  = fold_left add_name (map (visit_name d) teams) (map fst (team_data st)).
Proof.
  revert st. induction teams as [|t teams IH]; intros st; [reflexivity|].
  cbn [fold_left map]. now rewrite IH, visit_team_data, keys_dict_set.
Qed.

Lemma add_name_In seen n x : In x (add_name seen n) <-> In x seen \/ x = n.
Proof.
  unfold add_name. destruct (existsb (String.eqb n) seen) eqn:E.
  - apply existsb_exists in E. destruct E as (y & Hy & Hny).
    apply String.eqb_eq in Hny. subst y. split; [tauto|].
    intros [H| ->]; assumption.
  - rewrite in_app_iff. cbn [In]. intuition congruence.
Qed.

Lemma add_name_NoDup seen n : NoDup seen -> NoDup (add_name seen n).
Proof.
  intros H. unfold add_name.
  destruct (existsb (String.eqb n) seen) eqn:E; [exact H|].
  apply NoDup_rev in H. rewrite <- (rev_involutive (seen ++ [n])).
  apply NoDup_rev. rewrite rev_app_distr. cbn [rev app].
  constructor; [|exact H]. rewrite <- in_rev. intros Hin.
  assert (Ht : existsb (String.eqb n) seen = true).
  { apply existsb_exists. exists n. split; [exact Hin|].
    apply String.eqb_refl. }
  congruence.
Qed.

Lemma fold_add_name_In names seen x :
  In x (fold_left add_name names seen) <-> In x seen \/ In x names.
Proof.
  revert seen. induction names as [|n names IH]; intros seen; cbn [fold_left In].
  - tauto.
  - rewrite IH, add_name_In. split; intros H; intuition (subst; auto).
Qed.

Lemma fold_add_name_NoDup names seen :
  NoDup seen -> NoDup (fold_left add_name names seen).
Proof.
  revert seen. induction names as [|n names IH]; intros seen H; [exact H|].
  cbn [fold_left]. apply IH. now apply add_name_NoDup.
Qed.

Lemma Forall2_map_eq {A B C : Type} (f : A -> C) (g : B -> C) l rs :
  Forall2 (fun x y => g y = f x) l rs -> map g rs = map f l.
Proof. induction 1; simpl; congruence. Qed.

(** X4: the table of teams has one entry for each name that a page
    resolved to, in the order in which the names first came up, and the
    report has one team row for each, in the same order. *)
Theorem one_team_row_per_name d teams :
  let names := map (visit_name d) teams in
  map fst (team_data (aggregate d teams)) = first_seen names
  /\ NoDup (first_seen names)
  /\ (forall n, In n (first_seen names) <-> In n names)
  /\ (forall r, main d teams = Ok r ->
                map Team_Name (Teams r) = first_seen names).
Proof.
  intros names.
  assert (Hk : map fst (team_data (aggregate d teams)) = first_seen names)
    by apply keys_fold_visit.
  split; [exact Hk|]. split; [apply fold_add_name_NoDup; constructor|].
  split.
  - intros n. unfold first_seen. rewrite fold_add_name_In. cbn [In]. tauto.
  - intros r Hr. destruct (main_Ok d teams r Hr) as (_ & Ht).
    apply for_each_Ok in Ht. rewrite <- Hk.
    apply Forall2_map_eq. eapply Forall2_impl; [|exact Ht].
    intros [name data] row H. apply team_row_of_Ok in H. now destruct H.
Qed.

Lemma one_team_row_per_name_witness :
  map Team_Name (Teams ex_alpha_report) = ["Alpha"].
Proof.
  destruct (one_team_row_per_name ex_site [ex_team "alpha"]) as (_ & _ & _ & H).
  exact (H ex_alpha_report eq_refl).
Defined.

(** ** Teams and their participants *)

Lemma visits_to_idem d k teams :
  visits_to d k (visits_to d k teams) = visits_to d k teams.
Proof.
  unfold visits_to. induction teams as [|t teams IH]; [reflexivity|].
  cbn [filter]. destruct (String.eqb (visit_name d t) k) eqn:E; [|exact IH].
  cbn [filter]. now rewrite E, IH.
Qed.

(** X5: the entry of a team is made by the visits that resolve to its
    name alone: a run over those visits only gives it the same entry,
    whatever the other teams of the list are and wherever they stand. *)
Theorem team_entry_from_own_visits d teams k :
  dict_get k (team_data (aggregate d teams))
  = dict_get k (team_data (aggregate d (visits_to d k teams))).
Proof.
  rewrite !aggregate_team_data, visits_to_idem. reflexivity.
Qed.

Lemma participants_of_team d teams name :
  filter (fun m => String.eqb (member_team m) name)
    (flat_map (visit_members d) teams)
  = flat_map (visit_members d) (visits_to d name teams).
Proof.
  induction teams as [|t teams IH]; [reflexivity|].
  cbn [flat_map visits_to filter]. rewrite filter_app, IH.
  fold (visits_to d name teams).
  destruct (String.eqb (visit_name d t) name) eqn:E.
  - rewrite filter_all; [reflexivity|].
    intros m Hm. now rewrite (visit_members_team d t m Hm).
  - rewrite filter_none; [reflexivity|].
    intros m Hm. now rewrite (visit_members_team d t m Hm).
Qed.

Lemma map_flat_map {A B C : Type} (f : B -> C) (g : A -> list B) l :
  map f (flat_map g l) = flat_map (fun x => map f (g x)) l.
Proof.
  induction l as [|x l IH]; [reflexivity|].
  cbn [flat_map]. now rewrite map_app, IH.
Qed.

(** X6: the two tables agree.  The members of a team entry are the
    names of the participants that carry its name, in the order of the
    participants; and every participant carries the name of a team that
    has an entry, and is among its members. *)
Theorem members_are_the_participants d teams :
  (forall name e,
     dict_get name (team_data (aggregate d teams)) = Some e ->
     members e
     = map full_name
         (filter (fun m => String.eqb (member_team m) name)
            (participant_data (aggregate d teams))))
  /\ (forall m,
        In m (participant_data (aggregate d teams)) ->
        exists e,
          dict_get (member_team m) (team_data (aggregate d teams)) = Some e
          /\ In (full_name m) (members e)).
Proof.
  split.
  - intros name e He. rewrite aggregate_team_data in He.
    rewrite aggregate_participant_data, participants_of_team, map_flat_map.
    destruct (visits_to d name teams) as [|t ts]; [discriminate|].
    now injection He as <-.
  - intros m Hm. rewrite aggregate_participant_data in Hm.
    apply in_flat_map in Hm. destruct Hm as (t & Ht & Hm).
    pose proof (visit_members_team d t m Hm) as Hname.
    assert (Hin : In t (visits_to d (member_team m) teams))
      by (apply visits_to_In; auto).
    rewrite aggregate_team_data.
    destruct (visits_to d (member_team m) teams) as [|u us] eqn:Ev;
      [destruct Hin|].
    eexists. split; [reflexivity|]. cbn [members].
    apply in_flat_map. exists t. split; [exact Hin|]. now apply in_map.
Qed.

Lemma members_are_the_participants_witness :
  exists e,
    dict_get "Beta"
      (team_data (aggregate ex_site [ex_team "alpha"; ex_team "beta"]))
    = Some e
    /\ members e = ["Erin"; "Frank"].
Proof.
  destruct (members_are_the_participants ex_site
              [ex_team "alpha"; ex_team "beta"]) as (H & _).
  destruct (dict_get "Beta"
              (team_data (aggregate ex_site [ex_team "alpha"; ex_team "beta"])))
    as [e|] eqn:He; [|vm_compute in He; discriminate He].
  exists e. split; [reflexivity|].
  rewrite (H "Beta" e He). reflexivity.
Defined.

(** ** When the report is built, and when it is not *)

Lemma Forall2_Forall_l {A B : Type} (R : A -> B -> Prop) l rs :
  Forall2 R l rs -> Forall (fun x => exists y, R x y) l.
Proof. induction 1; constructor; eauto. Qed.

Lemma for_each_Raise {A B : Type} (f : A -> result B) l e :
  for_each f l = Raise e -> exists x, In x l /\ f x = Raise e.
Proof.
  induction l as [|x l IH]; simpl; [discriminate|].
  destruct (f x) as [y|e'] eqn:Ex; simpl.
  - destruct (for_each f l) as [ys|e'']; simpl; [discriminate|].
    intros [= <-]. destruct (IH eq_refl) as (z & Hz & Hf). eauto.
  - intros [= <-]. eauto.
Qed.

Lemma calculate_tickets_exn x e :
  calculate_tickets x = Raise e -> e = ValueError \/ e = OverflowError.
Proof.
  destruct x as [a| | |].
  - rewrite calculate_tickets_finite. destruct (Qle_bool 30 a); discriminate.
  - intros [= <-]. now right.
  - discriminate.
  - intros [= <-]. now left.
Qed.

(** X8: the report is built exactly when no amount of a participant and
    no team gifts of a team entry is nan or positive infinity; otherwise
    the run stops with [ValueError] or [OverflowError], the exceptions of
    [math.floor]. *)
Theorem report_built_iff d teams :
  ((exists r, main d teams = Ok r)
   <-> Forall (fun m => returns_tickets (amount m) = true)
         (participant_data (aggregate d teams))
       /\ Forall (fun item => returns_tickets (team_gifts (snd item)) = true)
            (team_data (aggregate d teams)))
  /\ forall e, main d teams = Raise e -> e = ValueError \/ e = OverflowError.
Proof.
  split; [split|].
  - intros (r & Hr). destruct (main_Ok d teams r Hr) as (Hp & Ht).
    apply for_each_Ok, Forall2_Forall_l in Hp.
    apply for_each_Ok, Forall2_Forall_l in Ht. split.
    + eapply Forall_impl; [|exact Hp]. intros m (row & Hrow).
      apply participant_row_of_Ok in Hrow. destruct Hrow as (_ & _ & _ & Hc).
      apply calculate_tickets_returns. eauto.
    + eapply Forall_impl; [|exact Ht]. intros [name data] (row & Hrow).
      apply team_row_of_Ok in Hrow. destruct Hrow as (_ & _ & _ & _ & Hc).
      apply calculate_tickets_returns. cbn [snd]. eauto.
  - intros (Hp & Ht). now apply main_returns.
  - intros e. unfold main, build_report.
    destruct (for_each participant_row_of _) as [ps|e1] eqn:Ep; simpl.
    + destruct (for_each team_row_of _) as [ts|e2] eqn:Et; simpl;
        [discriminate|].
      intros [= <-]. apply for_each_Raise in Et.
      destruct Et as ([name data] & _ & Hf). unfold team_row_of in Hf.
      destruct (calculate_tickets (team_gifts data)) as [n|e3] eqn:Ec;
        simpl in Hf; [discriminate|].
      injection Hf as <-. now apply calculate_tickets_exn in Ec.
    + intros [= <-]. apply for_each_Raise in Ep.
      destruct Ep as (m & _ & Hf). unfold participant_row_of in Hf.
      destruct (calculate_tickets (amount m)) as [n|e3] eqn:Ec;
        simpl in Hf; [discriminate|].
      injection Hf as <-. now apply calculate_tickets_exn in Ec.
Qed.

Lemma report_built_iff_witness :
  exists r, main ex_site [ex_team "alpha"; ex_team "beta"] = Ok r.
Proof.
  destruct (report_built_iff ex_site [ex_team "alpha"; ex_team "beta"])
    as ((_ & H) & _).
  apply H. split; repeat constructor.
Defined.

(** ** Amount texts without the letter n *)

Lemma lower_char_n c : lower_char c = "n"%char -> c = "n"%char \/ c = "N"%char.
Proof.
  destruct c as [[] [] [] [] [] [] [] []]; vm_compute; intros H;
    try discriminate H; auto.
Qed.

Lemma has_char_lower s :
  has_char "n" s = false -> has_char "N" s = false ->
  has_char "n" (lower s) = false.
Proof.
  induction s as [|a r IH]; [reflexivity|]. intros H1 H2.
  apply has_char_cons in H1. apply has_char_cons in H2.
  destruct H1 as (H1 & H1r). destruct H2 as (H2 & H2r).
  cbn [lower has_char]. rewrite (IH H1r H2r), orb_false_r.
  destruct (Ascii.eqb_spec (lower_char a) "n") as [E|E]; [|reflexivity].
  apply lower_char_n in E. destruct E as [->| ->]; discriminate.
Qed.

Lemma read_abs_finite s v :
  has_char "n" s = false -> has_char "N" s = false ->
  read_abs s = Some v -> finite v.
Proof.
  intros H1 H2. pose proof (has_char_lower s H1 H2) as Hl.
  unfold read_abs.
  destruct (String.eqb_spec (lower s) "inf") as [E|_];
    [rewrite E in Hl; discriminate Hl|].
  destruct (String.eqb_spec (lower s) "infinity") as [E|_];
    [rewrite E in Hl; discriminate Hl|].
  destruct (String.eqb_spec (lower s) "nan") as [E|_];
    [rewrite E in Hl; discriminate Hl|].
  cbn [orb]. destruct (read_number s); [|discriminate].
  now intros [= <-].
Qed.

Lemma read_signed_cases s :
  read_signed s = read_abs s
  \/ exists a r, s = String a r
                 /\ (read_signed s = read_abs r
                     \/ read_signed s = option_map fneg (read_abs r)).
Proof.
  destruct s as [|a r]; [now left|].
  destruct a as [[] [] [] [] [] [] [] []];
    first [ left; reflexivity
          | right; do 2 eexists; split; [reflexivity|]; left; reflexivity
          | right; do 2 eexists; split; [reflexivity|]; right; reflexivity ].
Qed.

Lemma fneg_finite v : finite v -> finite (fneg v).
Proof. now destruct v. Qed.

Lemma read_signed_finite s v :
  has_char "n" s = false -> has_char "N" s = false ->
  read_signed s = Some v -> finite v.
Proof.
  intros H1 H2. destruct (read_signed_cases s) as [E|(a & r & -> & [E|E])];
    rewrite E.
  - now apply read_abs_finite.
  - apply has_char_cons in H1. apply has_char_cons in H2.
    apply read_abs_finite; tauto.
  - apply has_char_cons in H1. apply has_char_cons in H2.
    destruct (read_abs r) as [w|] eqn:R; [|discriminate].
    intros [= <-]. apply fneg_finite.
    eapply read_abs_finite; [| |exact R]; tauto.
Qed.

Lemma parse_amount_finite raised :
  has_char "n" raised = false -> has_char "N" raised = false ->
  exists a, parse_amount raised = Ok a /\ finite a.
Proof.
  intros H1 H2. rewrite parse_amount_total. eexists. split; [reflexivity|].
  unfold py_float.
  destruct (drop_underscores None (amount_str raised)) as [s'|] eqn:E;
    [|exact I].
  destruct (read_signed _) as [w|] eqn:R; [|exact I].
  eapply read_signed_finite; [| |exact R];
    apply has_char_lstrip_by, has_char_rstrip_by;
    (eapply has_char_drop_underscores; [exact E|]);
    now apply has_char_amount_str.
Qed.

Lemma last_Forall {A : Type} (P : A -> Prop) l dflt :
  Forall P l -> P dflt -> P (last l dflt).
Proof.
  induction 1 as [|x l Hx Hl IH]; intros Hd; [exact Hd|].
  rewrite last_cons. clear IH. revert x Hx.
  induction Hl as [|y l Hy Hl IH]; intros x Hx; [exact Hx|].
  rewrite last_cons. now apply IH.
Qed.

Lemma readable_finite d t x :
  no_letter_n d t ->
  In x (readable (member_blocks (d (team_link t)))) -> finite (snd x).
Proof.
  intros Hn Hx. apply readable_In in Hx. destruct Hx as (b & Hb & Hr).
  unfold read_block in Hr.
  destruct (participant_name b) as [name_text|]; [|discriminate].
  destruct (participant_raised b) as [raised|] eqn:Er; [|discriminate].
  destruct (Hn b raised Hb Er) as (H1 & H2).
  destruct (parse_amount_finite raised H1 H2) as (a & Ha & Hfin).
  rewrite Ha in Hr. now injection Hr as <-.
Qed.

Lemma visit_finite d t :
  no_letter_n d t ->
  Forall (fun m => finite (amount m)) (visit_members d t)
  /\ finite (visit_gifts d t).
Proof.
  intros Hn. destruct (members_present (d (team_link t))) eqn:Hp.
  - destruct (scrape_team_members_present d t Hp) as (Hm & Hg & _).
    rewrite Hm, Hg. split.
    + apply Forall_forall. intros m Hin. apply in_map_iff in Hin.
      destruct Hin as (x & <- & Hx). apply filter_In in Hx.
      cbn [member_of amount]. apply (readable_finite d t); tauto.
    + apply last_Forall; [|exact I]. apply Forall_forall. intros a Hin.
      apply in_map_iff in Hin. destruct Hin as (x & <- & Hx).
      apply filter_In in Hx. apply (readable_finite d t); tauto.
  - destruct (scrape_team_members_absent d t Hp) as (Hm & Hg & _).
    rewrite Hm, Hg. split; [constructor | exact I].
Qed.

Lemma Forall_dict_set {V : Type} (P : V -> Prop) k v (d : dict V) :
  Forall (fun item => P (snd item)) d -> P v ->
  Forall (fun item => P (snd item)) (dict_set k v d).
Proof.
  intros Hd Hv. induction Hd as [|[k0 v0] r H0 Hr IH]; cbn [dict_set].
  - now repeat constructor.
  - destruct (String.eqb k0 k); constructor; assumption.
Qed.

Lemma finite_returns x : finite x -> returns_tickets x = true.
Proof. now destruct x. Qed.

Lemma team_gifts_finite d teams st :
  Forall (no_letter_n d) teams ->
  Forall (fun item => finite (team_gifts (snd item))) (team_data st) ->
  Forall (fun item => finite (team_gifts (snd item)))
    (team_data (fold_left (visit d) teams st)).
Proof.
  intros Hn. revert st. induction Hn as [|t teams Ht _ IH]; intros st Hst;
    [exact Hst|].
  cbn [fold_left]. apply IH. rewrite visit_team_data.
  apply (Forall_dict_set (fun e => finite (team_gifts e))); [exact Hst|].
  unfold entry_after.
  destruct (dict_get _ _); cbn [team_gifts]; now apply visit_finite.
Qed.

Lemma plain_amount_texts_no_letter_n d t :
  plain_amount_texts d t -> no_letter_n d t.
Proof.
  intros H b raised Hb Hr. destruct (H b raised Hb Hr) as (_ & H1 & H2 & _).
  now split.
Qed.

(** X9: when every amount text on the pages visited is plain (at most
    300 characters, and without the letters n and e, so that it spells
    no nan and no infinity, has no exponent, and its number stays far
    below the largest float), every amount read is finite and the report
    is built: no such text can stop the run.  The length and the letter
    e are excluded for the sake of the floats of the interpreter, where a
    text like 1e400 is read as infinity; the exact numbers of this model
    never leave the finite values. *)
Theorem report_built_on_plain_texts d teams :
  Forall (plain_amount_texts d) teams ->
  Forall (fun m => finite (amount m)) (participant_data (aggregate d teams))
  /\ exists r, main d teams = Ok r.
Proof.
  intros Hplain.
  assert (Hn : Forall (no_letter_n d) teams).
  { eapply Forall_impl; [|exact Hplain].
    intros t. apply plain_amount_texts_no_letter_n. }
  assert (Hp : Forall (fun m => finite (amount m))
                 (participant_data (aggregate d teams))).
  { rewrite aggregate_participant_data. apply Forall_forall. intros m Hm.
    apply in_flat_map in Hm. destruct Hm as (t & Ht & Hm).
    rewrite Forall_forall in Hn.
    destruct (visit_finite d t (Hn t Ht)) as (Hms & _).
    rewrite Forall_forall in Hms. now apply Hms. }
  split; [exact Hp|]. apply main_returns.
  - eapply Forall_impl; [|exact Hp]. intros m. apply finite_returns.
  - pose proof (team_gifts_finite d teams initial Hn (Forall_nil _)) as Hg.
    eapply Forall_impl; [|exact Hg]. intros item. apply finite_returns.
Qed.

Lemma report_built_on_plain_texts_witness :
  exists r, main ex_site [ex_team "alpha"; ex_team "nameless"] = Ok r.
Proof.
  apply (report_built_on_plain_texts ex_site
           [ex_team "alpha"; ex_team "nameless"]).
  apply Forall_cons; [|apply Forall_cons; [|apply Forall_nil]].
  - intros b raised [<-|[<-|[<-|[]]]] [= <-]; cbn; repeat split; lia.
  - intros b raised [<-|[<-|[]]] [= <-]; cbn; repeat split; lia.
Defined.

(** ** Every block of a page is accounted for *)

Lemma filter_split_length {A : Type} (f : A -> bool) (l : list A) :
  List.length l
  = (List.length (filter f l)
     + List.length (filter (fun x => negb (f x)) l))%nat.
Proof.
  induction l as [|x l IH]; [reflexivity|].
  cbn [filter]. destruct (f x); cbn [negb List.length]; lia.
Qed.

Lemma readable_length bs :
  List.length bs
  = (List.length (readable bs) + List.length (filter skipped bs))%nat.
Proof.
  induction bs as [|b bs IH]; [reflexivity|].
  change (readable (b :: bs))
    with (match read_block b with Some x => [x] | None => [] end
          ++ readable bs).
  cbn [filter]. unfold skipped at 1.
  destruct (read_block b); cbn [app List.length]; lia.
Qed.

(** X10: on a page whose blocks showed up, every block ends as exactly
    one of three things: a member record, a team gifts amount, or a line
    printed for a block that was skipped; and the loop prints nothing
    else. *)
Theorem every_block_is_accounted_for d t :
  members_present (d (team_link t)) = true ->
  let bs := member_blocks (d (team_link t)) in
  List.length bs
  = (List.length (visit_members d t)
     + List.length (filter (fun x => is_team_gifts (fst x)) (readable bs))
     + List.length (visit_printed d t))%nat
  /\ Forall (fun line => line = SkippingBlock (visit_name d t))
       (visit_printed d t).
Proof.
  intros Hp bs. subst bs.
  destruct (scrape_team_members_present d t Hp) as (Hm & _ & Ho).
  rewrite Hm, Ho, visit_name_eq, !length_map. split.
  - rewrite (readable_length (member_blocks (d (team_link t)))).
    rewrite (filter_split_length is_gift (readable _)).
    unfold is_gift. lia.
  - apply Forall_forall. intros line Hin. apply in_map_iff in Hin.
    now destruct Hin as (b & <- & _).
Qed.

Lemma every_block_is_accounted_for_witness :
  List.length (member_blocks ex_beta)
  = (List.length (visit_members ex_site (ex_team "beta")) + 2
     + List.length (visit_printed ex_site (ex_team "beta")))%nat.
Proof.
  exact (proj1 (every_block_is_accounted_for ex_site (ex_team "beta")
                  eq_refl)).
Defined.

(** ** The whole run *)

Lemma navigated_app es1 es2 :
  navigated (es1 ++ es2) = navigated es1 ++ navigated es2.
Proof. apply flat_map_app. Qed.

Lemma saved_app es1 es2 : saved (es1 ++ es2) = saved es1 ++ saved es2.
Proof. apply flat_map_app. Qed.

Lemma says_navigate_nothing lines : navigated (map Say lines) = [].
Proof. induction lines; [reflexivity | assumption]. Qed.

Lemma says_save_nothing lines : saved (map Say lines) = [].
Proof. induction lines; [reflexivity | assumption]. Qed.

Lemma visiting_navigated d teams :
  navigated
    (flat_map (fun t => Navigate (team_link t)
                        :: map Say (snd (scrape_team_members d t))) teams)
  = map team_link teams.
Proof.
  induction teams as [|t teams IH]; [reflexivity|].
  cbn [flat_map map]. rewrite navigated_app, IH.
  change (navigated (Navigate (team_link t) :: ?l))
    with (team_link t :: navigated l).
  now rewrite says_navigate_nothing.
Qed.

Lemma visiting_saved d teams :
  saved
    (flat_map (fun t => Navigate (team_link t)
                        :: map Say (snd (scrape_team_members d t))) teams)
  = []
  /\ ~ In QuitDriver
       (flat_map (fun t => Navigate (team_link t)
                           :: map Say (snd (scrape_team_members d t))) teams).
Proof.
  split.
  - induction teams as [|t teams IH]; [reflexivity|].
    cbn [flat_map]. rewrite saved_app, IH.
    change (saved (Navigate (team_link t) :: ?l)) with (saved l).
    now rewrite says_save_nothing.
  - intros Hin. apply in_flat_map in Hin. destruct Hin as (t & _ & Hin).
    destruct Hin as [H|Hin]; [discriminate H|].
    apply in_map_iff in Hin. now destruct Hin as (line & H & _).
Qed.

Lemma listing_effects b url :
  navigated (fst (scrape_team_list b url)) = [url]
  /\ saved (fst (scrape_team_list b url)) = []
  /\ ~ In QuitDriver (fst (scrape_team_list b url)).
Proof.
  unfold scrape_team_list.
  destruct (team_list_links (list_page_at b url));
    destruct (accept_clickable (list_page_at b url)); cbn;
    repeat split; intuition discriminate.
Qed.

Lemma scrape_team_list_links b url :
  match snd (scrape_team_list b url) with
  | Some teams =>
      teams <> [] /\ map team_link teams = team_list_links (list_page_at b url)
      /\ Forall (fun t => team_name t = "") teams
  | None => team_list_links (list_page_at b url) = []
  end.
Proof.
  unfold scrape_team_list.
  destruct (team_list_links (list_page_at b url)) as [|l ls]; [reflexivity|].
  cbn [snd]. split; [discriminate|]. split.
  - rewrite map_map. cbn [team_link]. apply map_id.
  - apply Forall_forall. intros t Hin. apply in_map_iff in Hin.
    now destruct Hin as (u & <- & _).
Qed.

(** X11: a run loads the team list page and then the page of each link
    found on it, once each and in document order, and no other page;
    this holds for a run that ends with an exception as well.  With no
    link on the list page the wait times out, which nothing catches: the
    run stops there with [TimeoutException] instead of going on with an
    empty list. *)
Theorem pages_are_visited_in_order b :
  navigated (fst (run_main b))
  = base_url :: team_list_links (list_page_at b base_url)
  /\ (snd (run_main b) = Some TimeoutException
      <-> team_list_links (list_page_at b base_url) = []).
Proof.
  unfold run_main.
  destruct (listing_effects b base_url) as (Hn & _ & _).
  pose proof (scrape_team_list_links b base_url) as Hl.
  destruct (scrape_team_list b base_url) as [listing [teams|]];
    cbn [fst snd] in *.
  - destruct Hl as (Hne & Hlinks & _). rewrite <- Hlinks.
    destruct (main (detail_page_at b) teams) as [r|e]; cbn [fst snd];
      rewrite !navigated_app, Hn, visiting_navigated;
      (split; [now rewrite ?app_nil_r|]);
      (split; [discriminate|]); intros H;
      now destruct teams.
  - rewrite Hn, Hl. split; [reflexivity|]. tauto.
Qed.

(** X12: the workbook is written and the browser is closed only at the
    end of a run that finished: the run then ends by writing the report
    of [main] once, saying so and closing the browser, having written
    nothing before.  A run that stops with an exception has written
    nothing and leaves the browser open. *)
Theorem workbook_and_quit_only_on_success b :
  (snd (run_main b) = None ->
   exists before r,
     fst (run_main b)
     = before ++ [SaveWorkbook output_filename r; SaySuccess output_filename;
                  QuitDriver]
     /\ saved before = [] /\ ~ In QuitDriver before
     /\ exists teams, snd (scrape_team_list b base_url) = Some teams
                      /\ main (detail_page_at b) teams = Ok r)
  /\ (forall f, snd (run_main b) = Some f ->
                saved (fst (run_main b)) = []
                /\ ~ In QuitDriver (fst (run_main b))).
Proof.
  unfold run_main.
  destruct (listing_effects b base_url) as (_ & Hs & Hq).
  destruct (scrape_team_list b base_url) as [listing [teams|]];
    cbn [fst snd] in *.
  - destruct (visiting_saved (detail_page_at b) teams) as (Vs & Vq).
    destruct (main (detail_page_at b) teams) as [r|e] eqn:Hm; cbn [fst snd].
    + split; [|discriminate]. intros _.
      exists (listing ++ flat_map
                (fun t => Navigate (team_link t)
                          :: map Say (snd (scrape_team_members
                                             (detail_page_at b) t))) teams), r.
      rewrite <- app_assoc. split; [reflexivity|].
      rewrite saved_app, Hs, Vs. split; [reflexivity|]. split.
      * rewrite in_app_iff. tauto.
      * eauto.
    + split; [discriminate|]. intros f _.
      rewrite saved_app, Hs, Vs. split; [reflexivity|].
      rewrite in_app_iff. tauto.
  - split; [discriminate|]. intros f _. auto.
Qed.

Lemma workbook_and_quit_only_on_success_witness :
  (exists before r,
     fst (run_main ex_browser)
     = before ++ [SaveWorkbook output_filename r; SaySuccess output_filename;
                  QuitDriver])
  /\ ~ In QuitDriver (fst (run_main ex_empty_browser)).
Proof.
  destruct (workbook_and_quit_only_on_success ex_browser) as (H & _).
  destruct (workbook_and_quit_only_on_success ex_empty_browser) as (_ & H').
  split.
  - destruct (H eq_refl) as (before & r & E & _). eauto.
  - exact (proj2 (H' TimeoutException eq_refl)).
Defined.

(** ** The rows of the report *)

Lemma Forall2_Forall_r {A B : Type} (R : A -> B -> Prop) l rs :
  Forall2 R l rs -> Forall (fun y => exists x, R x y) rs.
Proof. induction 1; constructor; eauto. Qed.

(** X13: when the report is built, its participant rows are the member
    records of all pages, page after page in the order of the team list
    and block after block within a page, each with its name, its team
    and its amount unchanged; the columns left for the user are empty in
    every row of both sheets, and the members of a team row are the
    names of its entry joined by a comma and a space. *)
Theorem report_rows_follow_the_pages d teams r :
  main d teams = Ok r ->
  map (fun row => (Full_Name row, Team row, Amount_Raised row))
    (Participants r)
  = map (fun m => (full_name m, member_team m, amount m))
      (flat_map (visit_members d) teams)
  /\ Forall (fun row => Attendance row = "" /\ Shirt_Size row = "")
       (Participants r)
  /\ Forall (fun row => Camera_Collected row = "") (Teams r)
  /\ Forall2 (fun item row => Members row = join ", " (members (snd item)))
       (team_data (aggregate d teams)) (Teams r).
Proof.
  intros Hr. destruct (main_Ok d teams r Hr) as (Hp & Ht).
  apply for_each_Ok in Hp. apply for_each_Ok in Ht.
  rewrite aggregate_participant_data in Hp.
  split; [|split; [|split]].
  - apply Forall2_map_eq. eapply Forall2_impl; [|exact Hp].
    intros m row H. apply participant_row_of_Ok in H.
    destruct H as (-> & -> & -> & _). reflexivity.
  - apply Forall2_Forall_r in Hp. eapply Forall_impl; [|exact Hp].
    intros row (m & H). unfold participant_row_of in H.
    destruct (calculate_tickets (amount m)); simpl in H; [|discriminate].
    injection H as <-. now split.
  - apply Forall2_Forall_r in Ht. eapply Forall_impl; [|exact Ht].
    intros row ([name data] & H). unfold team_row_of in H.
    destruct (calculate_tickets (team_gifts data)); simpl in H;
      [|discriminate].
    now injection H as <-.
  - eapply Forall2_impl; [|exact Ht].
    intros [name data] row H. apply team_row_of_Ok in H. now destruct H.
Qed.

Lemma report_rows_follow_the_pages_witness :
  map (fun row => (Full_Name row, Team row, Amount_Raised row))
    (Participants ex_alpha_report)
  = map (fun m => (full_name m, member_team m, amount m))
      (flat_map (visit_members ex_site) [ex_team "alpha"]).
Proof.
  exact (proj1 (report_rows_follow_the_pages ex_site [ex_team "alpha"]
                  ex_alpha_report eq_refl)).
Defined.

(** ** Amount texts as the site prints them *)

Lemma all_chars_app p (s1 s2 : string) :
  all_chars p (s1 ++ s2)%string = (all_chars p s1 && all_chars p s2)%bool.
Proof.
  induction s1 as [|c r IH]; [reflexivity|].
  cbn [String.append all_chars]. now rewrite IH, andb_assoc.
Qed.

Lemma all_chars_impl (p q : ascii -> bool) s :
  (forall c, p c = true -> q c = true) ->
  all_chars p s = true -> all_chars q s = true.
Proof.
  intros Hpq. induction s as [|c r IH]; [reflexivity|].
  cbn [all_chars]. rewrite !andb_true_iff. intros (Hc & Hr). auto.
Qed.

Lemma strip_by_nothing sp s :
  all_chars (fun c => negb (sp c)) s = true ->
  lstrip_by sp s = s /\ rstrip_by sp s = s.
Proof.
  induction s as [|c r IH]; [now split|].
  cbn [all_chars]. rewrite andb_true_iff, negb_true_iff. intros (Hc & Hr).
  destruct (IH Hr) as (_ & IHr). cbn [lstrip_by rstrip_by].
  rewrite Hc, IHr. split; [reflexivity|]. now destruct r.
Qed.

Lemma has_char_all_chars c s :
  all_chars (fun a => negb (Ascii.eqb a c)) s = true -> has_char c s = false.
Proof.
  induction s as [|a r IH]; [reflexivity|].
  cbn [all_chars has_char]. rewrite andb_true_iff, negb_true_iff.
  intros (Ha & Hr). now rewrite Ha, IH.
Qed.

Lemma numeral_char_facts c :
  numeral_char c = true ->
  py_isspace c = false /\ float_space c = false
  /\ Ascii.eqb c "_" = false /\ Ascii.eqb c "$" = false
  /\ Ascii.eqb c "," = false /\ Ascii.eqb c "n" = false
  /\ Ascii.eqb c "N" = false.
Proof.
  destruct c as [[] [] [] [] [] [] [] []]; vm_compute; intros H;
    try discriminate H; repeat split.
Qed.

Lemma remove_char_app c (s1 s2 : string) :
  remove_char c (s1 ++ s2)%string
  = (remove_char c s1 ++ remove_char c s2)%string.
Proof.
  induction s1 as [|a r IH]; [reflexivity|].
  cbn [String.append remove_char]. rewrite IH. now destruct (Ascii.eqb a c).
Qed.

Lemma remove_money_marks s :
  all_chars money_char s = true ->
  remove_char "," (remove_char "$" s) = digits_of s.
Proof.
  induction s as [|c r IH]; [reflexivity|].
  cbn [all_chars]. rewrite andb_true_iff. intros (Hc & Hr).
  cbn [remove_char digits_of]. specialize (IH Hr).
  destruct (is_digit c) eqn:Ed.
  - assert (Hn : numeral_char c = true) by (unfold numeral_char; now rewrite Ed).
    destruct (numeral_char_facts c Hn) as (_ & _ & _ & H1 & H2 & _).
    rewrite H1. cbn [remove_char]. now rewrite H2, IH.
  - unfold money_char in Hc. rewrite Ed in Hc. cbn [orb] in Hc.
    destruct (Ascii.eqb_spec c "$") as [->|_]; [exact IH|].
    cbn [orb] in Hc. cbn [remove_char]. now rewrite Hc.
Qed.

Lemma digits_of_spec s :
  all_chars is_digit (digits_of s) = true
  /\ String.length (digits_of s) = digit_count s
  /\ forall acc, decimal_value (digits_of s) acc = decimal_value s acc.
Proof.
  induction s as [|c r (IH1 & IH2 & IH3)]; [now repeat split|].
  cbn [digits_of digit_count decimal_value]. destruct (is_digit c) eqn:Ed.
  - cbn [all_chars String.length decimal_value]. rewrite Ed, IH1, IH2.
    repeat split. intros acc. apply IH3.
  - now repeat split.
Qed.

Lemma drop_underscores_nothing prev s :
  all_chars numeral_char s = true ->
  match prev with Some p => Ascii.eqb p "_" | None => false end = false ->
  drop_underscores prev s = Some s.
Proof.
  revert prev. induction s as [|c r IH]; intros prev Hs Hprev.
  - cbn [drop_underscores]. now rewrite Hprev.
  - cbn [all_chars] in Hs. apply andb_true_iff in Hs. destruct Hs as (Hc & Hr).
    destruct (numeral_char_facts c Hc) as (_ & _ & Hu & _).
    cbn [drop_underscores]. rewrite Hu, Hprev. cbn [andb].
    now rewrite (IH (Some c) Hr Hu).
Qed.

Lemma read_signed_numeral s :
  all_chars numeral_char s = true -> read_signed s = read_abs s.
Proof.
  destruct s as [|c r]; [reflexivity|]. cbn [all_chars].
  rewrite andb_true_iff. intros (Hc & _).
  destruct c as [[] [] [] [] [] [] [] []]; try discriminate Hc; reflexivity.
Qed.

Lemma read_abs_numeral s :
  all_chars numeral_char s = true ->
  read_abs s = option_map Fin (read_number s).
Proof.
  intros Hs.
  assert (Hl : has_char "n" (lower s) = false).
  { apply has_char_lower; apply has_char_all_chars;
      (eapply all_chars_impl; [|exact Hs]); intros c Hc;
      destruct (numeral_char_facts c Hc) as (_ & _ & _ & _ & _ & H1 & H2);
      now rewrite ?H1, ?H2. }
  unfold read_abs.
  destruct (String.eqb_spec (lower s) "inf") as [E|_];
    [rewrite E in Hl; discriminate Hl|].
  destruct (String.eqb_spec (lower s) "infinity") as [E|_];
    [rewrite E in Hl; discriminate Hl|].
  destruct (String.eqb_spec (lower s) "nan") as [E|_];
    [rewrite E in Hl; discriminate Hl|].
  reflexivity.
Qed.

Lemma py_float_numeral s :
  all_chars numeral_char s = true ->
  py_float s = match read_number s with
               | Some q => Ok (Fin q)
               | None => Raise ValueError
               end.
Proof.
  intros Hs. unfold py_float.
  rewrite (drop_underscores_nothing None s Hs eq_refl).
  assert (Hsp : all_chars (fun c => negb (float_space c)) s = true).
  { eapply all_chars_impl; [|exact Hs]. intros c Hc.
    destruct (numeral_char_facts c Hc) as (_ & -> & _). reflexivity. }
  destruct (strip_by_nothing float_space s Hsp) as (Hl & Hr).
  rewrite Hr, Hl, (read_signed_numeral s Hs), (read_abs_numeral s Hs).
  now destruct (read_number s).
Qed.

Lemma read_digits_app ds rest acc n :
  all_chars is_digit ds = true ->
  read_digits (ds ++ rest)%string acc n
  = read_digits rest (decimal_value ds acc) (n + String.length ds)%nat.
Proof.
  revert acc n. induction ds as [|c r IH]; intros acc n Hd.
  - cbn. now rewrite Nat.add_0_r.
  - cbn [all_chars] in Hd. apply andb_true_iff in Hd. destruct Hd as (Hc & Hr).
    cbn [String.append read_digits decimal_value String.length].
    rewrite Hc, (IH _ _ Hr). f_equal. lia.
Qed.

Lemma append_empty_r (s : string) : (s ++ "")%string = s.
Proof. induction s as [|c r IH]; [reflexivity|]. cbn. now rewrite IH. Qed.

Lemma read_number_plain ds :
  all_chars is_digit ds = true -> String.length ds <> O ->
  read_number ds = Some (scale10 (decimal_value ds 0) 0).
Proof.
  intros Hd Hlen. unfold read_number.
  rewrite <- (append_empty_r ds) at 1.
  rewrite (read_digits_app ds "" 0 0 Hd). cbn [read_digits Nat.add].
  rewrite Nat.add_0_r. destruct (String.length ds); [contradiction|].
  reflexivity.
Qed.

Lemma read_number_point ds1 ds2 :
  all_chars is_digit ds1 = true -> all_chars is_digit ds2 = true ->
  (String.length ds1 + String.length ds2)%nat <> O ->
  read_number (ds1 ++ "." ++ ds2)%string
  = Some (scale10 (decimal_value ds2 (decimal_value ds1 0))
            (0 - Z.of_nat (String.length ds2))).
Proof.
  intros H1 H2 Hlen. unfold read_number.
  rewrite (read_digits_app ds1 ("." ++ ds2) 0 0 H1).
  cbn [String.append read_digits Nat.add].
  change (is_digit ".") with false. cbn iota.
  rewrite <- (append_empty_r ds2) at 1.
  rewrite (read_digits_app ds2 "" _ 0 H2). cbn [read_digits Nat.add].
  destruct (String.length ds1 + String.length ds2)%nat; [contradiction|].
  reflexivity.
Qed.

Lemma money_char_facts c :
  (money_char c || Ascii.eqb c ".")%bool = true -> py_isspace c = false.
Proof.
  destruct c as [[] [] [] [] [] [] [] []]; vm_compute; intros H;
    try discriminate H; reflexivity.
Qed.

Lemma amount_str_money s :
  all_chars money_char s = true -> amount_str s = digits_of s.
Proof.
  intros Hs. unfold amount_str, strip.
  assert (Hsp : all_chars (fun c => negb (py_isspace c)) s = true).
  { eapply all_chars_impl; [|exact Hs]. intros c Hc.
    rewrite (money_char_facts c); [reflexivity|]. now rewrite Hc. }
  destruct (strip_by_nothing py_isspace s Hsp) as (Hl & Hr).
  rewrite Hr, Hl. now apply remove_money_marks.
Qed.

Lemma amount_str_money_point s1 s2 :
  all_chars money_char s1 = true -> all_chars money_char s2 = true ->
  amount_str (s1 ++ "." ++ s2)%string
  = (digits_of s1 ++ "." ++ digits_of s2)%string.
Proof.
  intros H1 H2. unfold amount_str, strip.
  assert (Hsp : all_chars (fun c => negb (py_isspace c))
                  (s1 ++ "." ++ s2)%string = true).
  { rewrite !all_chars_app, !andb_true_iff. repeat split.
    - eapply all_chars_impl; [|exact H1]. intros c Hc.
      rewrite (money_char_facts c); [reflexivity|]. now rewrite Hc.
    - eapply all_chars_impl; [|exact H2]. intros c Hc.
      rewrite (money_char_facts c); [reflexivity|]. now rewrite Hc. }
  destruct (strip_by_nothing py_isspace _ Hsp) as (Hl & Hr).
  rewrite Hr, Hl, !remove_char_app.
  rewrite (remove_money_marks s1 H1), (remove_money_marks s2 H2).
  reflexivity.
Qed.

Lemma digits_are_numeral s :
  all_chars is_digit s = true -> all_chars numeral_char s = true.
Proof.
  apply all_chars_impl. intros c Hc. unfold numeral_char. now rewrite Hc.
Qed.

Lemma scale10_point m k :
  (scale10 m (0 - Z.of_nat k) * inject_Z (10 ^ Z.of_nat k)
   == inject_Z (Z.of_N m))%Q.
Proof.
  destruct k as [|k].
  - unfold scale10, Qeq. cbn. lia.
  - change (0 - Z.of_nat (S k))%Z with (Z.neg (Pos.of_succ_nat k)).
    change (Z.of_nat (S k)) with (Z.pos (Pos.of_succ_nat k)).
    unfold scale10, Qeq. cbn [Qnum Qden Qmult inject_Z].
    rewrite Pos.mul_1_r, Pos2Z.inj_pow. lia.
Qed.

(** X14: an amount text made of digits, dollar signs and commas only,
    with one to fifteen digits, is read as the whole number its digits
    spell; and two such texts around a decimal point, with one to fifteen
    digits in all, are read as the number the digits spell with as many
    decimals as there are digits after the point, when that number is a
    whole multiple of a power of two (as with .00, .25, .50 and .75).
    Dollar signs and commas change nothing, wherever they stand.  The
    bounds keep to the numbers a float holds exactly: the interpreter
    rounds the others to the nearest float, which the exact numbers of
    this model do not show. *)
Theorem money_text_reads_as_its_digits s1 s2 :
  all_chars money_char s1 = true ->
  all_chars money_char s2 = true ->
  (digit_count s1 <> O ->
   (digit_count s1 <= 15)%nat ->
   exists q, parse_amount s1 = Ok (Fin q)
             /\ (q == inject_Z (Z.of_N (decimal_value s1 0)))%Q)
  /\ ((digit_count s1 + digit_count s2)%nat <> O ->
      (digit_count s1 + digit_count s2 <= 15)%nat ->
      (Z.of_N (decimal_value s2 (decimal_value s1 0))
       mod 5 ^ Z.of_nat (digit_count s2) = 0)%Z ->
      exists q, parse_amount (s1 ++ "." ++ s2)%string = Ok (Fin q)
                /\ (q * inject_Z (10 ^ Z.of_nat (digit_count s2))
                    == inject_Z (Z.of_N (decimal_value s2 (decimal_value s1 0))))%Q).
Proof.
  intros H1 H2.
  destruct (digits_of_spec s1) as (D1 & L1 & V1).
  destruct (digits_of_spec s2) as (D2 & L2 & V2).
  split.
  - intros Hlen _.
    rewrite parse_amount_total, (amount_str_money s1 H1).
    rewrite (py_float_numeral _ (digits_are_numeral _ D1)).
    rewrite (read_number_plain _ D1); [|now rewrite L1].
    eexists. split; [reflexivity|]. rewrite V1.
    unfold scale10, Qeq. cbn. lia.
  - intros Hlen _ _.
    rewrite parse_amount_total, (amount_str_money_point s1 s2 H1 H2).
    rewrite py_float_numeral.
    + rewrite (read_number_point _ _ D1 D2); [|now rewrite L1, L2].
      eexists. split; [reflexivity|].
      rewrite L2, V2, V1. apply scale10_point.
    + rewrite !all_chars_app, !andb_true_iff.
      repeat split; now apply digits_are_numeral.
Qed.

Lemma money_text_reads_as_its_digits_witness :
  exists q, parse_amount "$1,234.50" = Ok (Fin q)
            /\ (q * 100 == 123450)%Q.
Proof.
  destruct (money_text_reads_as_its_digits "$1,234" "50" eq_refl eq_refl)
    as (_ & H).
  assert (Hcount : (digit_count "$1,234" + digit_count "50" <= 15)%nat)
    by (cbn; lia).
  destruct (H ltac:(discriminate) Hcount eq_refl) as (q & Hq & Hv).
  exists q. split; [exact Hq | exact Hv].
Defined.
